(** * wango: a WAMP-style RPC and publish/subscribe server

    Shallow embedding of [server.go] (package [wango]) and the properties of
    its registries, its RPC dispatch, its subscription handling and its
    publish fan-out.

    Conventions of the embedding.
    - A Go [map] is a [gmap]; a [range] loop over a map that can leave early
      takes the order in which the runtime enumerates the entries as an
      explicit argument, and the theorems quantify over every order that is a
      permutation of the map's entries.
    - [c.send(msg)] puts [msg] on the connection's outbound channel; the
      embedding records it as a [packet] in the list of sends of the
      operation, in program order. The answers of [handleSubscribe] and
      [handleUnSubscribe] are sent with [go c.send]: the code does not fix
      their place among later sends, and no statement below depends on it.
    - Handlers supplied by the hosting process are pure functions; the
      RPC and subscription handlers are never [nil].
    - The mutexes only delimit the critical sections; every operation below
      is one such critical section (or, for [Publish], the snapshot followed
      by the delivery loop). *)

From stdpp Require Import gmap strings list fin_maps.

(** ** Values crossing the API *)

(** Go [error] values. The five sentinels are the package's exported errors
    used by [server.go]; [errors.Wrap] and [errors.New] of [pkg/errors] build
    the others. *)
Inductive error : Type :=
  | ErrHandlerAlreadyRegistered
  | ErrRPCNotRegistered
  | ErrSubURINotRegistered
  | ErrForbidden
  | ErrNotSubscribes
  | errors_New (text : string)
  | errors_Wrap (cause : error) (text : string).

(** A pointer to a [regexp.Regexp]: the address of the compiled expression and the source
    text returned by its [String()] method. Map keys of that type compare
    the pointer. *)
Record Regexp : Type := mkRegexp { rgx_addr : positive; rgx_String : string }.

#[global] Instance Regexp_eq_dec : EqDecision Regexp.
Proof. solve_decision. Defined.

#[global] Instance Regexp_countable : Countable Regexp :=
  inj_countable' (λ r, (rgx_addr r, rgx_String r))
                 (λ p, mkRegexp p.1 p.2)
                 (λ r, match r with mkRegexp _ _ => eq_refl end).

(** [interface{}]: the dynamic values that reach the server, tagged with
    their dynamic type. *)
#[warnings="-register-all"]
Inductive Any : Type :=
  | ANil
  | ABool (b : bool)
  | ANumber (n : Z)
  | AString (s : string)
  | ARegexp (r : Regexp)
  | AErrorObject (e : error)
  | ASeq (l : list Any).

(** The message-kind discriminator. [server.go] only uses the named
    constants, which Go requires to be pairwise distinct in one [switch];
    [msgOther] stands for every other integer. *)
Inductive msgType : Type :=
  | msgPrefix
  | msgCall
  | msgCallResult
  | msgCallError
  | msgSubscribe
  | msgUnsubscribe
  | msgPublish
  | msgEvent
  | msgSubscribed
  | msgSubscribeError
  | msgUnsubscribed
  | msgUnSubscribeError
  | msgHeartbeat
  | msgOther (n : Z).

#[global] Instance msgType_eq_dec : EqDecision msgType.
Proof. solve_decision. Defined.

(** Modelled from the spec: [createMessage] and [createError] belong to the
    codec, which is outside [server.go]. Section 6 gives the wire envelope as
    an ordered sequence whose first element is the message kind, followed by
    the fields, and the [errorObject] as the payload that carries an error to
    the client. The envelope is kept structured instead of serialised. *)
Record message : Type := mkMessage { msg_kind : msgType; msg_fields : list Any }.

Definition createMessage (kind : msgType) (args : list Any) : message :=
  mkMessage kind args.

Definition createError (err : error) : Any := AErrorObject err.

(** What [parseWampMessage] extracts from the fields of a frame; [server.go]
    reads these three fields. The call id is an opaque token. *)
Record wampMessage : Type :=
  mkWampMessage { CallID : Any; URI : string; Args : list Any }.

(** ** Handlers *)

Definition RPCHandler : Type := string → string → list Any → Any * option error.
Definition SubHandler : Type := string → string → list Any → bool.
Definition PubHandler : Type := string → Any → Any → bool * Any.

(** [type subHandler struct { subHandler SubHandler; pubHandler PubHandler }];
    a [nil] [pubHandler] is [None]. *)
Record subHandler : Type :=
  mkSubHandler { h_subHandler : SubHandler; h_pubHandler : option PubHandler }.

Abbreviation subscribersMap := (gmap string bool).

(** [type conn struct]: the stream handle and the channel are effects, see
    [packet] below. *)
Record conn : Type := mkConn { id : string; extra : Any }.

(** ** The server *)

Record WS : Type := mkWS {
  connections : gmap string conn;
  rpcHandlers : gmap string RPCHandler;
  rpcRgxHandlers : gmap Regexp RPCHandler;
  subHandlers : gmap string subHandler;
  subscribers : gmap string subscribersMap
}.

Definition New : WS := mkWS ∅ ∅ ∅ ∅ ∅.

(** What goes on a connection's outbound channel: an encoded message, or the
    raw frame echoed by the heartbeat. *)
Inductive payload : Type :=
  | Encoded (m : message)
  | Raw (data : string).

(** One [c.send(msg)]: the receiving connection's id and the payload. *)
Definition packet : Type := string * payload.

Definition send (c : conn) (msg : payload) : packet := (id c, msg).

(** ** Code outside [server.go] that the server calls *)

Class External : Type := {
  (** [MatchString] of the standard library's [regexp] package *)
  MatchString : Regexp → string → bool;
  (** [parseMessage(data)]: the kind, the fields and the error *)
  parseMessage : string → msgType * list Any * option error;
  (** [parseWampMessage(kind, msg)]: the message, or the error *)
  parseWampMessage : msgType → list Any → wampMessage + error;
  (** the constant stored for a member of a subscriber set *)
  subscriberExists : bool
}.

(** ** Registration *)

Definition set_rpcHandlers (server : WS) (m : gmap string RPCHandler) : WS :=
  mkWS (connections server) m (rpcRgxHandlers server) (subHandlers server)
       (subscribers server).

Definition set_rpcRgxHandlers (server : WS) (m : gmap Regexp RPCHandler) : WS :=
  mkWS (connections server) (rpcHandlers server) m (subHandlers server)
       (subscribers server).

Definition set_subHandlers (server : WS) (m : gmap string subHandler) : WS :=
  mkWS (connections server) (rpcHandlers server) (rpcRgxHandlers server) m
       (subscribers server).

Definition set_subscribers (server : WS) (m : gmap string subscribersMap) : WS :=
  mkWS (connections server) (rpcHandlers server) (rpcRgxHandlers server)
       (subHandlers server) m.

Definition set_connections (server : WS) (m : gmap string conn) : WS :=
  mkWS m (rpcHandlers server) (rpcRgxHandlers server) (subHandlers server)
       (subscribers server).

(** The loop [for k := range server.rpcRgxHandlers] of [RegisterRPCHandler]:
    [true] when it returns from inside the loop. *)
Fixpoint rgxRegistered (range : list (Regexp * RPCHandler)) (rgx : Regexp) : bool :=
  match range with
  | [] => false
  | (k, _) :: range' =>
      if String.eqb (rgx_String k) (rgx_String rgx) then true
      else rgxRegistered range' rgx
  end.

(** [RegisterRPCHandler(_uri, fn)]; [range] is the order in which the
    pattern table is enumerated. The type switch has no default case. *)
Definition RegisterRPCHandler (range : list (Regexp * RPCHandler))
    (_uri : Any) (fn : RPCHandler) (server : WS) : WS * option error :=
  match _uri with
  | AString uri =>
      match rpcHandlers server !! uri with
      | Some _ =>
          (server, Some (errors_Wrap ErrHandlerAlreadyRegistered
                                     "when registering string rpcHandler"))
      | None => (set_rpcHandlers server (<[uri := fn]> (rpcHandlers server)), None)
      end
  | ARegexp rgx =>
      if rgxRegistered range rgx then
        (server, Some (errors_Wrap ErrHandlerAlreadyRegistered
                                   "when registering rgx rpcHandler"))
      else
        (set_rpcRgxHandlers server (<[rgx := fn]> (rpcRgxHandlers server)), None)
  | _ => (server, None)
  end.

(** [RegisterSubHandler(uri, fnSub, fnPub)] *)
Definition RegisterSubHandler (uri : string) (fnSub : SubHandler)
    (fnPub : option PubHandler) (server : WS) : WS * option error :=
  match subHandlers server !! uri with
  | Some _ =>
      (server, Some (errors_Wrap ErrHandlerAlreadyRegistered
                                 "when registering subHandler"))
  | None =>
      (set_subHandlers server
         (<[uri := mkSubHandler fnSub fnPub]> (subHandlers server)), None)
  end.

(** ** Connection registry *)

(** [addConnection(ws, extra)]; [connID] is the value [newUUIDv4()] returns. *)
Definition addConnection (connID : string) (extra : Any) (server : WS) : WS * conn :=
  let cn := mkConn connID extra in
  (set_connections server (<[id cn := cn]> (connections server)), cn).

(** [getConnection(id)] *)
Definition getConnection (connID : string) (server : WS) : conn + error :=
  match connections server !! connID with
  | Some cn => inl cn
  | None => inr (errors_New "NOT FOUND")
  end.

(** [deleteConnection(id)]: the loop deletes the id from every subscriber
    set and never leaves early, so the order of enumeration is immaterial. *)
Definition deleteConnection (connID : string) (server : WS) : WS :=
  mkWS (delete connID (connections server))
       (rpcHandlers server) (rpcRgxHandlers server) (subHandlers server)
       (delete connID <$> subscribers server).

(** ** Publish *)

(** The delivery loop [for _, id := range subscriberIds] of [Publish]. *)
Fixpoint deliver (server : WS) (pubHandler : option PubHandler) (uri : string)
    (event : Any) (subscriberIds : list string) : list packet :=
  match subscriberIds with
  | [] => []
  | connID :: subscriberIds' =>
      match getConnection connID server with
      | inr _ => deliver server pubHandler uri event subscriberIds'
      | inl c =>
          match pubHandler with
          | Some filter =>
              let '(allow, modifiedEvent) := filter uri event (extra c) in
              if allow then
                send c (Encoded (createMessage msgEvent [AString uri; modifiedEvent]))
                  :: deliver server pubHandler uri event subscriberIds'
              else deliver server pubHandler uri event subscriberIds'
          | None =>
              send c (Encoded (createMessage msgEvent [AString uri; event]))
                :: deliver server pubHandler uri event subscriberIds'
          end
      end
  end.

(** The filter [Publish] uses: the one registered under exactly [uri]. *)
Definition pubHandlerOf (uri : string) (server : WS) : option PubHandler :=
  match subHandlers server !! uri with
  | Some handler => h_pubHandler handler
  | None => None
  end.

(** [Publish(uri, event)]; [range] is the order in which the subscriber set
    of [uri] is enumerated when the ids are copied. *)
Definition Publish (range : list (string * bool)) (uri : string) (event : Any)
    (server : WS) : list packet :=
  let pubHandler := pubHandlerOf uri server in
  match subscribers server !! uri with
  | None => []
  | Some subs =>
      if decide (size subs = 0) then []
      else
        let subscriberIds := range.*1 in
        deliver server pubHandler uri event subscriberIds
  end.

Section Handlers.
Context {ext : External}.

(** ** RPC calls *)

(** The loop [for rgx, handler = range server.rpcRgxHandlers]. *)
Fixpoint scanRgxHandlers (range : list (Regexp * RPCHandler)) (uri : string)
    : option RPCHandler :=
  match range with
  | [] => None
  | (rgx, handler) :: range' =>
      if MatchString rgx uri then Some handler
      else scanRgxHandlers range' uri
  end.

(** Lines 197-207 of [handleRPCCall]: [Some handler] when [ok] ends up true. *)
Definition resolve (range : list (Regexp * RPCHandler)) (uri : string)
    (server : WS) : option RPCHandler :=
  match rpcHandlers server !! uri with
  | Some handler => Some handler
  | None => scanRgxHandlers range uri
  end.

(** [handleRPCCall(c, msg)] *)
Definition handleRPCCall (range : list (Regexp * RPCHandler)) (c : conn)
    (msg : list Any) (server : WS) : list packet :=
  match parseWampMessage msgCall msg with
  | inr _ => []
  | inl rpcMessage =>
      let uri := URI rpcMessage in
      match resolve range uri server with
      | Some handler =>
          match handler (id c) uri (Args rpcMessage) with
          | (_, Some err) =>
              [send c (Encoded (createMessage msgCallError
                         [CallID rpcMessage; createError err]))]
          | (res, None) =>
              [send c (Encoded (createMessage msgCallResult
                         [CallID rpcMessage; res]))]
          end
      | None =>
          [send c (Encoded (createMessage msgCallError
                     [CallID rpcMessage; createError ErrRPCNotRegistered]))]
      end
  end.

(** ** Subscriptions *)

(** The loop [for uri, handler := range server.subHandlers] of
    [handleSubscribe]: [Some] when the function returns from inside it. *)
Fixpoint subscribeLoop (range : list (string * subHandler)) (c : conn)
    (subMessage : wampMessage) (server : WS) : option (WS * list packet) :=
  match range with
  | [] => None
  | (uri, handler) :: range' =>
      let _uri := URI subMessage in
      if String.prefix uri _uri then
        if h_subHandler handler (id c) _uri (Args subMessage) then
          let subs := default ∅ (subscribers server !! _uri) in
          Some (set_subscribers server
                  (<[_uri := <[id c := subscriberExists]> subs]> (subscribers server)),
                [send c (Encoded (createMessage msgSubscribed [AString _uri]))])
        else
          Some (server,
                [send c (Encoded (createMessage msgSubscribeError
                           [AString _uri; createError ErrForbidden]))])
      else subscribeLoop range' c subMessage server
  end.

(** [handleSubscribe(c, msg)] *)
Definition handleSubscribe (range : list (string * subHandler)) (c : conn)
    (msg : list Any) (server : WS) : WS * list packet :=
  match parseWampMessage msgSubscribe msg with
  | inr _ => (server, [])
  | inl subMessage =>
      match subscribeLoop range c subMessage server with
      | Some returned => returned
      | None =>
          (server,
           [send c (Encoded (createMessage msgSubscribeError
                      [AString (URI subMessage); createError ErrSubURINotRegistered]))])
      end
  end.

(** The loop [for uri, subscribers := range server.subscribers] of
    [handleUnSubscribe]. The loop variable refers to the map stored under
    [uri], so [delete(subscribers, c.id)] changes that map in place. *)
Fixpoint unsubscribeLoop (range : list (string * subscribersMap)) (c : conn)
    (_uri : string) (server : WS) : option (WS * list packet) :=
  match range with
  | [] => None
  | (uri, subs) :: range' =>
      if decide (uri = _uri) then
        match subs !! id c with
        | Some _ =>
            Some (set_subscribers server
                    (alter (delete (id c)) uri (subscribers server)),
                  [send c (Encoded (createMessage msgUnsubscribed [AString _uri]))])
        | None =>
            Some (server,
                  [send c (Encoded (createMessage msgUnSubscribeError
                             [AString _uri; createError ErrNotSubscribes]))])
        end
      else unsubscribeLoop range' c _uri server
  end.

(** [handleUnSubscribe(c, msg)] *)
Definition handleUnSubscribe (range : list (string * subscribersMap)) (c : conn)
    (msg : list Any) (server : WS) : WS * list packet :=
  match parseWampMessage msgUnsubscribe msg with
  | inr _ => (server, [])
  | inl unsubMessage =>
      match unsubscribeLoop range c (URI unsubMessage) server with
      | Some returned => returned
      | None =>
          (server,
           [send c (Encoded (createMessage msgUnSubscribeError
                      [AString (URI unsubMessage); createError ErrSubURINotRegistered]))])
      end
  end.

(** [handleHeartbeat(c, msg, data)] *)
Definition handleHeartbeat (c : conn) (msg : list Any) (data : string) : list packet :=
  [send c (Raw data)].

(** [handlePublish(c, msg)]; the source parses with [msgUnsubscribe]. *)
Definition handlePublish (range : list (string * bool)) (c : conn)
    (msg : list Any) (server : WS) : list packet :=
  match parseWampMessage msgUnsubscribe msg with
  | inr _ => []
  | inl pubMessage =>
      let event := match Args pubMessage with
                   | [] => ANil
                   | arg :: _ => arg
                   end in
      Publish range (URI pubMessage) event server
  end.

(** ** The receive loop *)

(** The orders in which the maps are enumerated while one frame is handled. *)
Record ranges : Type := mkRanges {
  range_rpcRgxHandlers : list (Regexp * RPCHandler);
  range_subHandlers : list (string * subHandler);
  range_subscribers : list (string * subscribersMap);
  range_subscriberIds : list (string * bool)
}.

(** One turn of the loop of [receive] after a frame was read: the parse
    error is printed, and the [switch] is reached in either case. *)
Definition dispatch (r : ranges) (c : conn) (data : string) (server : WS)
    : WS * list packet :=
  let '(kind, msg, err) := parseMessage data in
  match kind with
  | msgCall => (server, handleRPCCall (range_rpcRgxHandlers r) c msg server)
  | msgSubscribe => handleSubscribe (range_subHandlers r) c msg server
  | msgUnsubscribe => handleUnSubscribe (range_subscribers r) c msg server
  | msgPublish => (server, handlePublish (range_subscriberIds r) c msg server)
  | msgHeartbeat => (server, handleHeartbeat c msg data)
  | _ => (server, [])
  end.

(** [receive(c)]: [frames] are the frames read before [Receive] fails, each
    with the enumeration orders met while it is handled. The connection is
    closed when the list is exhausted. *)
Fixpoint receive (c : conn) (frames : list (string * ranges)) (server : WS)
    : WS * list packet :=
  match frames with
  | [] => (server, [])
  | (data, r) :: frames' =>
      let '(server', sent) := dispatch r c data server in
      let '(server'', sent') := receive c frames' server' in
      (server'', sent ++ sent')
  end.

(** ** The server as a state machine *)

(** The operations that run against one server, each atomic with respect to
    the registries it locks. *)
Inductive op : Type :=
  | OpRegisterRPCHandler (range : list (Regexp * RPCHandler)) (_uri : Any)
      (fn : RPCHandler)
  | OpRegisterSubHandler (uri : string) (fnSub : SubHandler)
      (fnPub : option PubHandler)
  | OpPublish (range : list (string * bool)) (uri : string) (event : Any)
  | OpAddConnection (connID : string) (extra : Any)
  | OpDispatch (r : ranges) (c : conn) (data : string)
  | OpDeleteConnection (connID : string).

Definition exec (o : op) (server : WS) : WS * list packet :=
  match o with
  | OpRegisterRPCHandler range _uri fn =>
      ((RegisterRPCHandler range _uri fn server).1, [])
  | OpRegisterSubHandler uri fnSub fnPub =>
      ((RegisterSubHandler uri fnSub fnPub server).1, [])
  | OpPublish range uri event => (server, Publish range uri event server)
  | OpAddConnection connID extra => ((addConnection connID extra server).1, [])
  | OpDispatch r c data => dispatch r c data server
  | OpDeleteConnection connID => (deleteConnection connID server, [])
  end.

Fixpoint run (ops : list op) (server : WS) : WS * list packet :=
  match ops with
  | [] => (server, [])
  | o :: ops' =>
      let '(server', sent) := exec o server in
      let '(server'', sent') := run ops' server' in
      (server'', sent ++ sent')
  end.

(** ** Invariants and classes of operations *)

(** Every connection is stored under its own id, as [addConnection] does. *)
Definition registryOK (server : WS) : Prop :=
  map_Forall (λ k c, id c = k) (connections server).

(** The id is in neither the connection map nor any subscriber set. *)
Definition purged (connID : string) (server : WS) : Prop :=
  connections server !! connID = None
  ∧ ∀ topic subs, subscribers server !! topic = Some subs → subs !! connID = None.

(** The operations of the connection with that id: its creation and the
    frames of its receive loop. *)
Definition concerns (connID : string) (o : op) : Prop :=
  match o with
  | OpAddConnection k _ => k = connID
  | OpDispatch _ c _ => id c = connID
  | _ => False
  end.

(** The operation is a subscribe frame for that topic. *)
Definition subscribesTo (topic : string) (o : op) : Prop :=
  match o with
  | OpDispatch _ _ data =>
      (parseMessage data).1.1 = msgSubscribe
      ∧ ∃ subMessage,
          parseWampMessage msgSubscribe (parseMessage data).1.2 = inl subMessage
          ∧ URI subMessage = topic
  | _ => False
  end.

End Handlers.

(** ** Executions of the server *)

Section Executions.
Context {ext : External}.

(** What the runtime guarantees when an operation runs: a [range] loop
    enumerates the entries the map has at that moment, and a frame is handled
    for a connection that [addConnection] stored and that was not torn down
    yet. *)
Definition consistent (o : op) (server : WS) : Prop :=
  match o with
  | OpRegisterRPCHandler range _ _ =>
      range ≡ₚ map_to_list (rpcRgxHandlers server)
  | OpPublish range uri _ =>
      range ≡ₚ map_to_list (default ∅ (subscribers server !! uri))
  | OpDispatch r c data =>
      connections server !! id c = Some c
      ∧ range_rpcRgxHandlers r ≡ₚ map_to_list (rpcRgxHandlers server)
      ∧ range_subHandlers r ≡ₚ map_to_list (subHandlers server)
      ∧ range_subscribers r ≡ₚ map_to_list (subscribers server)
      ∧ ∀ pubMessage,
          parseWampMessage msgUnsubscribe (parseMessage data).1.2 = inl pubMessage →
          range_subscriberIds r
            ≡ₚ map_to_list (default ∅ (subscribers server !! URI pubMessage))
  | _ => True
  end.

(** A sequence of operations each consistent with the state it meets. *)
Fixpoint legal (ops : list op) (server : WS) : Prop :=
  match ops with
  | [] => True
  | o :: ops' => consistent o server ∧ legal ops' (exec o server).1
  end.

(** Every member of a subscriber set is the id of a stored connection. *)
Definition noDangling (server : WS) : Prop :=
  ∀ topic subs k,
    subscribers server !! topic = Some subs → is_Some (subs !! k) →
    is_Some (connections server !! k).

(** No two stored patterns have the same source text. *)
Definition uniqueSources (server : WS) : Prop :=
  ∀ k1 k2,
    is_Some (rpcRgxHandlers server !! k1) → is_Some (rpcRgxHandlers server !! k2) →
    rgx_String k1 = rgx_String k2 → k1 = k2.

(** Every topic with a subscriber set has a registered prefix. *)
Definition topicsCovered (server : WS) : Prop :=
  ∀ topic,
    is_Some (subscribers server !! topic) →
    ∃ prefix handler,
      subHandlers server !! prefix = Some handler
      ∧ String.prefix prefix topic = true.

End Executions.

(** ** A sample deployment

    A small codec and a few handlers, on which the statements below are
    evaluated. *)
Module Sample.

(** treats the source text as a literal prefix *)
Definition matchPrefix (rgx : Regexp) (s : string) : bool :=
  String.prefix (rgx_String rgx) s.

Definition decode (data : string) : msgType * list Any * option error :=
  if String.eqb data "call-add" then
    (msgCall, [AString "7"; AString "math.add"; ANumber 1; ANumber 2], None)
  else if String.eqb data "sub-sports" then
    (msgSubscribe, [AString "news.sports"], None)
  else if String.eqb data "unsub-sports" then
    (msgUnsubscribe, [AString "news.sports"], None)
  else if String.eqb data "pub-sports" then
    (msgPublish, [AString "news.sports"; AString "goal"], None)
  else if String.eqb data "beat" then (msgHeartbeat, [], None)
  else (msgOther 0, [], Some (errors_New "invalid message")).

Definition fields (kind : msgType) (msg : list Any) : wampMessage + error :=
  match kind, msg with
  | msgCall, callID :: AString uri :: args =>
      inl (mkWampMessage callID uri args)
  | msgCall, _ => inr (errors_New "invalid call")
  | _, AString uri :: args => inl (mkWampMessage ANil uri args)
  | _, _ => inr (errors_New "invalid message")
  end.

Definition codec : External :=
  {| MatchString := matchPrefix;
     parseMessage := decode;
     parseWampMessage := fields;
     subscriberExists := true |}.

(** a codec whose decoder reports every frame as a failed heartbeat *)
Definition codecHeartbeat : External :=
  {| MatchString := matchPrefix;
     parseMessage := λ _, (msgHeartbeat, [], Some (errors_New "invalid message"));
     parseWampMessage := fields;
     subscriberExists := true |}.

Definition add : RPCHandler :=
  λ _ _ args,
    match args with
    | [ANumber a; ANumber b] => (ANumber (a + b), None)
    | _ => (ANil, Some (errors_New "two numbers expected"))
    end.

Definition echo : RPCHandler :=
  λ _ _ args, (ASeq args, None).

Definition allowAll : SubHandler := λ _ _ _, true.
Definition allowNone : SubHandler := λ _ _ _, false.

(** lets the event through for every context except [ABool false] *)
Definition membersOnly : PubHandler :=
  λ _ event extra,
    match extra with
    | ABool false => (false, event)
    | _ => (true, ASeq [event; extra])
    end.

Definition alice : conn := mkConn "alice" (ABool true).
Definition bob : conn := mkConn "bob" (ABool false).
Definition carol : conn := mkConn "carol" ANil.

Definition mathRgx : Regexp := mkRegexp 1 "math.".
Definition mathRgx' : Regexp := mkRegexp 2 "math.".

(** alice, bob and a vanished dave subscribed to news.sports *)
Definition server : WS :=
  mkWS (<["alice" := alice]> (<["bob" := bob]> (<["carol" := carol]> ∅)))
       (<["math.add" := add]> ∅)
       (<[mathRgx := echo]> ∅)
       (<["news." := mkSubHandler allowAll None]>
          (<["news.sports" := mkSubHandler allowAll (Some membersOnly)]>
             (<["private." := mkSubHandler allowNone None]> ∅)))
       (<["news.sports" := <["alice" := true]> (<["bob" := true]>
                             (<["dave" := true]> ∅))]>
          (<["news.empty" := ∅]> ∅)).

Definition orders : ranges :=
  mkRanges (map_to_list (rpcRgxHandlers server))
           (map_to_list (subHandlers server))
           (map_to_list (subscribers server))
           (map_to_list (default ∅ (subscribers server !! "news.sports"))).

End Sample.

(** A second codec, with a call frame whose fields do not parse and a
    publish frame, a server where carol alone follows news.local, and a
    history of operations of a server that starts empty. *)
Module Sample2.

Definition decode (data : string) : msgType * list Any * option error :=
  if String.eqb data "call-bad" then (msgCall, [ANumber 0], None)
  else if String.eqb data "pub-local" then
    (msgPublish, [AString "news.local"; AString "rain"; AString "ignored"], None)
  else Sample.decode data.

Definition codec : External :=
  {| MatchString := Sample.matchPrefix;
     parseMessage := decode;
     parseWampMessage := Sample.fields;
     subscriberExists := true |}.


Definition local : WS :=
  (handleSubscribe (ext := codec) (range_subHandlers Sample.orders)
     Sample.carol [AString "news.local"] Sample.server).1.

Definition history : list op :=
  [OpRegisterSubHandler "news." Sample.allowAll None;
   OpRegisterRPCHandler [] (ARegexp Sample.mathRgx) Sample.echo;
   OpAddConnection "carol" ANil;
   OpDispatch (mkRanges [(Sample.mathRgx, Sample.echo)]
                        [("news.", mkSubHandler Sample.allowAll None)] [] [])
              Sample.carol "sub-sports";
   OpPublish [("carol", true)] "news.sports" (AString "goal");
   OpRegisterRPCHandler [(Sample.mathRgx, Sample.echo)]
                        (ARegexp Sample.mathRgx') Sample.add;
   OpDeleteConnection "carol"].

End Sample2.

(** ** Properties *)

Section Properties.
Context {ext : External}.

(** *** Enumeration orders *)

Lemma range_lookup `{Countable K} {V} (m : gmap K V) (range : list (K * V)) k v :
  range ≡ₚ map_to_list m → (k, v) ∈ range ↔ m !! k = Some v.
Proof. intros ->. apply elem_of_map_to_list. Qed.

Lemma range_keys `{Countable K} {V} (m : gmap K V) (range : list (K * V)) k :
  range ≡ₚ map_to_list m → k ∈ range.*1 ↔ is_Some (m !! k).
Proof.
  intros Hp. rewrite list_elem_of_fmap. split.
  - intros [[k' v] [-> Hin]]. exists v. by apply (range_lookup m range).
  - intros [v Hv]. exists (k, v). split; [done|]. by apply (range_lookup m range).
Qed.

Lemma range_NoDup `{Countable K} {V} (m : gmap K V) (range : list (K * V)) :
  range ≡ₚ map_to_list m → NoDup range.*1.
Proof. intros ->. apply NoDup_fst_map_to_list. Qed.

(** *** Registration *)

Lemma rgxRegistered_true range rgx :
  rgxRegistered range rgx = true ↔
  ∃ k fn, (k, fn) ∈ range ∧ rgx_String k = rgx_String rgx.
Proof.
  induction range as [|[k fn] range IH]; simpl.
  - split; [done|]. intros (? & ? & Hin & _). by apply elem_of_nil in Hin.
  - destruct (String.eqb (rgx_String k) (rgx_String rgx)) eqn:E.
    + split; [|done]. intros _. exists k, fn. split; [left|].
      by apply String.eqb_eq.
    + rewrite IH. apply String.eqb_neq in E. split.
      * intros (k' & fn' & Hin & Heq). exists k', fn'. split; [by right|done].
      * intros (k' & fn' & Hin & Heq). apply elem_of_cons in Hin as [[= -> ->]|Hin].
        { done. } by exists k', fn'.
Qed.

(** C6. Registering again an exact uri, a pattern whose source text is that
    of a registered pattern, or a subscription prefix returns the
    already-registered error and leaves the server as it was, so the handler
    stored first stays. *)
Theorem duplicate_registration_rejected (range : list (Regexp * RPCHandler))
    (server : WS) :
  range ≡ₚ map_to_list (rpcRgxHandlers server) →
  (∀ uri fn, is_Some (rpcHandlers server !! uri) →
     RegisterRPCHandler range (AString uri) fn server =
       (server, Some (errors_Wrap ErrHandlerAlreadyRegistered
                                  "when registering string rpcHandler")))
  ∧ (∀ rgx k fn, is_Some (rpcRgxHandlers server !! k) →
       rgx_String k = rgx_String rgx →
       RegisterRPCHandler range (ARegexp rgx) fn server =
         (server, Some (errors_Wrap ErrHandlerAlreadyRegistered
                                    "when registering rgx rpcHandler")))
  ∧ (∀ uri fnSub fnPub, is_Some (subHandlers server !! uri) →
       RegisterSubHandler uri fnSub fnPub server =
         (server, Some (errors_Wrap ErrHandlerAlreadyRegistered
                                    "when registering subHandler"))).
Proof.
  intros Hrange. repeat split.
  - intros uri fn [h Hh]. unfold RegisterRPCHandler. by rewrite Hh.
  - intros rgx k fn [h Hh] Heq. unfold RegisterRPCHandler.
    assert (rgxRegistered range rgx = true) as ->; [|done].
    apply rgxRegistered_true. exists k, h. split; [|done].
    by apply (range_lookup (rpcRgxHandlers server) range).
  - intros uri fnSub fnPub [h Hh]. unfold RegisterSubHandler. by rewrite Hh.
Qed.

(** C9. An argument that is neither a string nor a pattern makes
    [RegisterRPCHandler] return no error and leave both tables, and the
    whole server, as they were. *)
Theorem register_other_type_is_noop (range : list (Regexp * RPCHandler))
    (_uri : Any) (fn : RPCHandler) (server : WS) :
  (∀ uri, _uri ≠ AString uri) →
  (∀ rgx, _uri ≠ ARegexp rgx) →
  RegisterRPCHandler range _uri fn server = (server, None)
  ∧ rpcHandlers (RegisterRPCHandler range _uri fn server).1 = rpcHandlers server
  ∧ rpcRgxHandlers (RegisterRPCHandler range _uri fn server).1
      = rpcRgxHandlers server.
Proof.
  intros Hs Hr.
  assert (RegisterRPCHandler range _uri fn server = (server, None)) as ->.
  { destruct _uri; try done; [by destruct (Hs s)|by destruct (Hr r)]. }
  done.
Qed.

(** *** RPC calls *)

Lemma scanRgxHandlers_find range uri :
  scanRgxHandlers range uri = snd <$> find (λ e, MatchString e.1 uri) range.
Proof.
  induction range as [|[rgx handler] range IH]; simpl; [done|].
  by destruct (MatchString rgx uri).
Qed.

Lemma scanRgxHandlers_Some range uri handler :
  scanRgxHandlers range uri = Some handler →
  ∃ rgx, (rgx, handler) ∈ range ∧ MatchString rgx uri = true.
Proof.
  induction range as [|[rgx h] range IH]; simpl; [done|].
  destruct (MatchString rgx uri) eqn:E.
  - intros [= ->]. exists rgx. split; [left|done].
  - intros Hs. destruct (IH Hs) as (rgx' & Hin & Hm). exists rgx'.
    split; [by right|done].
Qed.

Lemma scanRgxHandlers_None range uri :
  scanRgxHandlers range uri = None ↔
  ∀ rgx handler, (rgx, handler) ∈ range → MatchString rgx uri = false.
Proof.
  induction range as [|[rgx h] range IH]; simpl.
  - split; [|done]. intros _ ? ? Hin. by apply elem_of_nil in Hin.
  - destruct (MatchString rgx uri) eqn:E.
    + split; [done|]. intros Hall. rewrite (Hall rgx h) in E; [done|left].
    + rewrite IH. split.
      * intros Hall rgx' h' [[= -> ->]|Hin]%elem_of_cons; [done|]. by eapply Hall.
      * intros Hall rgx' h' Hin. eapply Hall. by right.
Qed.

(** C4. When the exact-string table has a handler for the uri of a call,
    that handler is the one resolved and the response does not depend on the
    pattern table nor on the order of its enumeration; when it has none, the
    first pattern of the enumeration that matches the uri decides. *)
Theorem exact_handler_preferred (range : list (Regexp * RPCHandler)) (c : conn)
    (msg : list Any) (rpcMessage : wampMessage) (server : WS) :
  parseWampMessage msgCall msg = inl rpcMessage →
  (∀ handler, rpcHandlers server !! URI rpcMessage = Some handler →
     resolve range (URI rpcMessage) server = Some handler
     ∧ handleRPCCall range c msg server
         = [send c (Encoded
              match handler (id c) (URI rpcMessage) (Args rpcMessage) with
              | (_, Some err) =>
                  createMessage msgCallError
                    [CallID rpcMessage; createError err]
              | (res, None) =>
                  createMessage msgCallResult [CallID rpcMessage; res]
              end)]
     ∧ ∀ range' patterns,
         handleRPCCall range' c msg (set_rpcRgxHandlers server patterns)
           = handleRPCCall range c msg server)
  ∧ (rpcHandlers server !! URI rpcMessage = None →
       resolve range (URI rpcMessage) server
         = snd <$> find (λ e, MatchString e.1 (URI rpcMessage)) range).
Proof.
  intros Hparse. split.
  - intros handler Hh. unfold handleRPCCall, resolve. rewrite Hparse. simpl.
    rewrite Hh. repeat split.
    by destruct (handler _ _ _) as [res [err|]].
  - intros Hnone. unfold resolve. rewrite Hnone. apply scanRgxHandlers_find.
Qed.

(** C5. A call frame whose fields parse gets exactly one response, sent to
    the calling connection and carrying the call id: the result of the
    handler found for the uri, the error that handler returned, or the
    not-registered error when neither table has a handler for the uri. *)
Theorem call_gets_one_response (range : list (Regexp * RPCHandler)) (c : conn)
    (msg : list Any) (rpcMessage : wampMessage) (server : WS) :
  parseWampMessage msgCall msg = inl rpcMessage →
  range ≡ₚ map_to_list (rpcRgxHandlers server) →
  let uri := URI rpcMessage in
  let registered handler :=
    rpcHandlers server !! uri = Some handler
    ∨ (rpcHandlers server !! uri = None
       ∧ ∃ rgx, rpcRgxHandlers server !! rgx = Some handler
                ∧ MatchString rgx uri = true) in
  let response kind value :=
    [send c (Encoded (createMessage kind [CallID rpcMessage; value]))] in
  (∃ handler res,
      registered handler
      ∧ handler (id c) uri (Args rpcMessage) = (res, None)
      ∧ handleRPCCall range c msg server = response msgCallResult res)
  ∨ (∃ handler res err,
      registered handler
      ∧ handler (id c) uri (Args rpcMessage) = (res, Some err)
      ∧ handleRPCCall range c msg server = response msgCallError (createError err))
  ∨ (rpcHandlers server !! uri = None
     ∧ (∀ rgx handler, rpcRgxHandlers server !! rgx = Some handler →
          MatchString rgx uri = false)
     ∧ handleRPCCall range c msg server
         = response msgCallError (createError ErrRPCNotRegistered)).
Proof.
  intros Hparse Hrange uri registered response.
  unfold handleRPCCall. rewrite Hparse. fold uri.
  destruct (resolve range uri server) as [handler|] eqn:Hres.
  - assert (registered handler) as Hreg.
    { unfold resolve in Hres. unfold registered.
      destruct (rpcHandlers server !! uri) as [h|] eqn:Hexact.
      - left. congruence.
      - right. split; [done|].
        destruct (scanRgxHandlers_Some _ _ _ Hres) as (rgx & Hin & Hm).
        exists rgx. split; [|done].
        by apply (range_lookup (rpcRgxHandlers server) range). }
    destruct (handler (id c) uri (Args rpcMessage)) as [res [err|]] eqn:Hcall.
    + right. left. by exists handler, res, err.
    + left. by exists handler, res.
  - right. right. unfold resolve in Hres.
    destruct (rpcHandlers server !! uri) eqn:Hexact; [done|].
    split; [done|]. split; [|done].
    intros rgx handler Hh.
    eapply scanRgxHandlers_None; [exact Hres|].
    by apply (range_lookup (rpcRgxHandlers server) range).
Qed.

(** *** Subscriptions *)

Lemma find_range_None {A} (P : A → bool) (range : list A) :
  find P range = None ↔ ∀ x, x ∈ range → P x = false.
Proof.
  induction range as [|y range IH]; simpl.
  - split; [|done]. intros _ x Hin. by apply elem_of_nil in Hin.
  - destruct (P y) eqn:E.
    + split; [done|]. intros Hall. rewrite Hall in E; [done|left].
    + rewrite IH. split.
      * intros Hall x [->|Hin]%elem_of_cons; [done|by apply Hall].
      * intros Hall x Hin. apply Hall. by right.
Qed.

Lemma find_range_Some {A} (P : A → bool) (range : list A) x :
  find P range = Some x → x ∈ range ∧ P x = true.
Proof.
  induction range as [|y range IH]; simpl; [done|].
  destruct (P y) eqn:E.
  - intros [= ->]. split; [left|done].
  - intros Hf. destruct (IH Hf). split; [by right|done].
Qed.

Lemma subscribeLoop_find range c subMessage server :
  subscribeLoop range c subMessage server =
    match find (λ e, String.prefix e.1 (URI subMessage)) range with
    | Some (_, handler) =>
        Some (if h_subHandler handler (id c) (URI subMessage) (Args subMessage)
              then (set_subscribers server
                      (<[URI subMessage := <[id c := subscriberExists]>
                           (default ∅ (subscribers server !! URI subMessage))]>
                         (subscribers server)),
                    [send c (Encoded (createMessage msgSubscribed
                               [AString (URI subMessage)]))])
              else (server,
                    [send c (Encoded (createMessage msgSubscribeError
                       [AString (URI subMessage); createError ErrForbidden]))]))
    | None => None
    end.
Proof.
  induction range as [|[uri handler] range IH]; simpl; [done|].
  destruct (String.prefix uri (URI subMessage)); [|done].
  by destruct (h_subHandler handler _ _ _).
Qed.

(** C2. A subscribe request for a topic no registered prefix matches is
    answered with the not-registered error and changes nothing; otherwise the
    subscription handler of the first matching prefix of the enumeration is
    asked:
    on true the connection id is put into the topic's subscriber set, made
    on the spot when the topic had none, and the answer is Subscribed; on
    false the answer is the forbidden error and nothing changes. *)
Theorem subscribe_outcomes (range : list (string * subHandler)) (c : conn)
    (msg : list Any) (subMessage : wampMessage) (server : WS) :
  parseWampMessage msgSubscribe msg = inl subMessage →
  range ≡ₚ map_to_list (subHandlers server) →
  let topic := URI subMessage in
  let failure err :=
    (server, [send c (Encoded (createMessage msgSubscribeError
                        [AString topic; createError err]))]) in
  ((∀ prefix handler, subHandlers server !! prefix = Some handler →
      String.prefix prefix topic = false) →
   handleSubscribe range c msg server = failure ErrSubURINotRegistered)
  ∧ ((∃ prefix handler, subHandlers server !! prefix = Some handler
                        ∧ String.prefix prefix topic = true) →
     ∃ prefix handler,
       find (λ e, String.prefix e.1 topic) range = Some (prefix, handler)
       ∧ subHandlers server !! prefix = Some handler
       ∧ String.prefix prefix topic = true
       ∧ (h_subHandler handler (id c) topic (Args subMessage) = true →
            handleSubscribe range c msg server =
              (set_subscribers server
                 (<[topic := <[id c := subscriberExists]>
                                (default ∅ (subscribers server !! topic))]>
                    (subscribers server)),
               [send c (Encoded (createMessage msgSubscribed [AString topic]))]))
       ∧ (h_subHandler handler (id c) topic (Args subMessage) = false →
            handleSubscribe range c msg server = failure ErrForbidden)).
Proof.
  intros Hparse Hrange topic failure.
  unfold handleSubscribe. rewrite Hparse, subscribeLoop_find. fold topic. split.
  - intros Hnone.
    assert (find (λ e, String.prefix e.1 topic) range = None) as ->; [|done].
    apply find_range_None. intros [prefix handler] Hin. simpl.
    eapply Hnone. by apply (range_lookup (subHandlers server) range).
  - intros (prefix & handler & Hreg & Hpre).
    destruct (find (λ e, String.prefix e.1 topic) range) as [[p h]|] eqn:Hfind.
    + destruct (find_range_Some _ _ _ Hfind) as [Hin Hp]. simpl in Hp.
      exists p, h. split; [done|].
      split; [by apply (range_lookup (subHandlers server) range)|].
      split; [done|]. split; by intros ->.
    + exfalso. rewrite find_range_None in Hfind.
      specialize (Hfind (prefix, handler)). simpl in Hfind.
      rewrite Hfind in Hpre; [done|].
      by apply (range_lookup (subHandlers server) range).
Qed.

Lemma alter_lookup_Some `{Countable K} {V} (f : V → V) (m : gmap K V) k v :
  m !! k = Some v → alter f k m = <[k := f v]> m.
Proof.
  intros Hk. apply map_eq. intros j. rewrite lookup_alter, lookup_insert.
  destruct (decide (k = j)) as [->|]; [by rewrite Hk|done].
Qed.

Lemma unsubscribeLoop_absent range c topic server :
  topic ∉ range.*1 → unsubscribeLoop range c topic server = None.
Proof.
  induction range as [|[uri subs] range IH]; simpl; [done|].
  intros Hnot. apply not_elem_of_cons in Hnot as [Hne Hnot].
  destruct (decide (uri = topic)); [congruence|]. by apply IH.
Qed.

Lemma unsubscribeLoop_present range c topic subs server :
  NoDup range.*1 → (topic, subs) ∈ range →
  unsubscribeLoop range c topic server =
    Some (match subs !! id c with
          | Some _ =>
              (set_subscribers server
                 (alter (delete (id c)) topic (subscribers server)),
               [send c (Encoded (createMessage msgUnsubscribed [AString topic]))])
          | None =>
              (server,
               [send c (Encoded (createMessage msgUnSubscribeError
                          [AString topic; createError ErrNotSubscribes]))])
          end).
Proof.
  induction range as [|[uri subs'] range IH]; simpl.
  - intros _ Hin. by apply elem_of_nil in Hin.
  - intros [Hfresh Hnd]%NoDup_cons Hin.
    destruct (decide (uri = topic)) as [->|Hne].
    + apply elem_of_cons in Hin as [[= ->]|Hin]; [by destruct (subs' !! id c)|].
      exfalso. apply Hfresh. apply list_elem_of_fmap. by exists (topic, subs).
    + apply elem_of_cons in Hin as [[= -> ->]|Hin]; [done|]. by apply IH.
Qed.

(** C3. An unsubscribe request removes the connection id from the topic's
    subscriber set and is answered Unsubscribed when the id is a member; is
    answered with the not-subscribed error, nothing changed, when the topic
    has a set without the id; and with the not-registered error, nothing
    changed, when the topic has no set. The two error answers differ. *)
Theorem unsubscribe_outcomes (range : list (string * subscribersMap)) (c : conn)
    (msg : list Any) (unsubMessage : wampMessage) (server : WS) :
  parseWampMessage msgUnsubscribe msg = inl unsubMessage →
  range ≡ₚ map_to_list (subscribers server) →
  let topic := URI unsubMessage in
  let failure err :=
    (server, [send c (Encoded (createMessage msgUnSubscribeError
                        [AString topic; createError err]))]) in
  (∀ subs, subscribers server !! topic = Some subs → is_Some (subs !! id c) →
     handleUnSubscribe range c msg server =
       (set_subscribers server
          (<[topic := delete (id c) subs]> (subscribers server)),
        [send c (Encoded (createMessage msgUnsubscribed [AString topic]))]))
  ∧ (∀ subs, subscribers server !! topic = Some subs → subs !! id c = None →
       handleUnSubscribe range c msg server = failure ErrNotSubscribes)
  ∧ (subscribers server !! topic = None →
       handleUnSubscribe range c msg server = failure ErrSubURINotRegistered)
  ∧ failure ErrNotSubscribes ≠ failure ErrSubURINotRegistered.
Proof.
  intros Hparse Hrange topic failure.
  unfold handleUnSubscribe. rewrite Hparse. fold topic.
  pose proof (range_NoDup _ _ Hrange) as Hnd.
  repeat split.
  - intros subs Hsubs [b Hb].
    rewrite (unsubscribeLoop_present range c topic subs server Hnd).
    + rewrite Hb. by rewrite (alter_lookup_Some _ _ _ _ Hsubs).
    + by apply (range_lookup (subscribers server) range).
  - intros subs Hsubs Hb.
    rewrite (unsubscribeLoop_present range c topic subs server Hnd).
    + by rewrite Hb.
    + by apply (range_lookup (subscribers server) range).
  - intros Hnone. rewrite unsubscribeLoop_absent; [done|].
    rewrite (range_keys (subscribers server) range); [|done].
    rewrite Hnone. by intros [? ?].
  - unfold failure. intros [= ].
Qed.

(** *** Publish *)

Lemma deliver_app server pubHandler uri event ids ids' :
  deliver server pubHandler uri event (ids ++ ids')
  = deliver server pubHandler uri event ids
    ++ deliver server pubHandler uri event ids'.
Proof.
  induction ids as [|connID ids IH]; simpl; [done|].
  destruct (getConnection connID server) as [c|]; [|done].
  destruct pubHandler as [filter|]; [|by rewrite IH].
  destruct (filter uri event (extra c)) as [[] modifiedEvent]; by rewrite IH.
Qed.

Lemma Publish_deliver range uri event server subs :
  subscribers server !! uri = Some subs →
  range ≡ₚ map_to_list subs →
  Publish range uri event server
  = deliver server (pubHandlerOf uri server) uri event range.*1.
Proof.
  intros Hsubs Hrange. unfold Publish. rewrite Hsubs.
  destruct (decide (size subs = 0)) as [Hz|]; [|done].
  apply map_size_empty_iff in Hz. subst subs.
  rewrite map_to_list_empty in Hrange. by apply Permutation_nil_r in Hrange as ->.
Qed.

(** C1. In a publish, the ids copied from the subscriber set are handled one
    by one: an id with no connection in the registry, or one the filter
    refuses, adds nothing, any other id gets one Event message with the
    event as the filter returned it (or the event itself without a filter);
    what the ids before and after it get is what the loop sends for them
    alone. *)
Theorem publish_per_subscriber (range : list (string * bool)) (uri : string)
    (event : Any) (server : WS) (subs : subscribersMap)
    (before : list string) (connID : string) (after : list string) :
  subscribers server !! uri = Some subs →
  range ≡ₚ map_to_list subs →
  range.*1 = before ++ connID :: after →
  let pubHandler := pubHandlerOf uri server in
  let eventTo c value :=
    [send c (Encoded (createMessage msgEvent [AString uri; value]))] in
  ∃ sent,
    Publish range uri event server
    = deliver server pubHandler uri event before
      ++ sent ++ deliver server pubHandler uri event after
    ∧ (connections server !! connID = None → sent = [])
    ∧ (∀ c filter, connections server !! connID = Some c →
         pubHandler = Some filter →
         (filter uri event (extra c)).1 = false → sent = [])
    ∧ (∀ c filter, connections server !! connID = Some c →
         pubHandler = Some filter →
         (filter uri event (extra c)).1 = true →
         sent = eventTo c (filter uri event (extra c)).2)
    ∧ (∀ c, connections server !! connID = Some c →
         pubHandler = None → sent = eventTo c event).
Proof.
  intros Hsubs Hrange Hsplit pubHandler eventTo.
  exists (deliver server pubHandler uri event [connID]). split.
  - rewrite (Publish_deliver _ _ _ _ _ Hsubs Hrange), Hsplit.
    fold pubHandler. rewrite deliver_app. f_equal.
    apply (deliver_app _ _ _ _ [connID] after).
  - simpl. unfold getConnection.
    destruct (connections server !! connID) as [c|] eqn:Hc; simpl.
    + split; [done|].
      destruct pubHandler as [filter|] eqn:Hf.
      * destruct (filter uri event (extra c)) as [allow modifiedEvent] eqn:Hcall.
        repeat split.
        -- intros ? ? [= <-] [= <-]. rewrite Hcall. simpl. by intros ->.
        -- intros ? ? [= <-] [= <-]. rewrite Hcall. simpl. by intros ->.
        -- done.
      * repeat split; try done. by intros ? [= <-] _.
    + repeat split; done.
Qed.

(** *** The receive loop *)



(** *** Effects of one operation on the registries *)

Lemma unsubscribeLoop_cases range c topic server :
  match unsubscribeLoop range c topic server with
  | None => True
  | Some (server', sent) =>
      (server' = server
       ∨ server' = set_subscribers server
                     (alter (delete (id c)) topic (subscribers server)))
      ∧ ∀ p, p ∈ sent → p.1 = id c
  end.
Proof.
  induction range as [|[uri subs] range IH]; simpl; [done|].
  destruct (decide (uri = topic)) as [->|]; [|done].
  destruct (subs !! id c).
  - split; [by right|]. by intros p ->%list_elem_of_singleton.
  - split; [by left|]. by intros p ->%list_elem_of_singleton.
Qed.

Lemma handleSubscribe_cases range c msg server :
  let result := handleSubscribe range c msg server in
  (result.1 = server
   ∨ ∃ subMessage,
       parseWampMessage msgSubscribe msg = inl subMessage
       ∧ result.1 = set_subscribers server
           (<[URI subMessage := <[id c := subscriberExists]>
                (default ∅ (subscribers server !! URI subMessage))]>
              (subscribers server)))
  ∧ ∀ p, p ∈ result.2 → p.1 = id c.
Proof.
  unfold handleSubscribe.
  destruct (parseWampMessage msgSubscribe msg) as [subMessage|] eqn:Hparse; simpl.
  - rewrite subscribeLoop_find.
    destruct (find _ range) as [[prefix handler]|]; simpl.
    + destruct (h_subHandler handler _ _ _); simpl.
      * split; [right; by exists subMessage|]. by intros p ->%list_elem_of_singleton.
      * split; [by left|]. by intros p ->%list_elem_of_singleton.
    + split; [by left|]. by intros p ->%list_elem_of_singleton.
  - split; [by left|]. by intros p ?%elem_of_nil.
Qed.

Lemma handleUnSubscribe_cases range c msg server :
  let result := handleUnSubscribe range c msg server in
  (result.1 = server
   ∨ ∃ topic, result.1 = set_subscribers server
                           (alter (delete (id c)) topic (subscribers server)))
  ∧ ∀ p, p ∈ result.2 → p.1 = id c.
Proof.
  unfold handleUnSubscribe.
  destruct (parseWampMessage msgUnsubscribe msg) as [unsubMessage|]; simpl.
  - pose proof (unsubscribeLoop_cases range c (URI unsubMessage) server) as Hc.
    destruct (unsubscribeLoop range c (URI unsubMessage) server)
      as [[server' sent]|]; simpl.
    + destruct Hc as [[->| ->] Hsent]; (split; [|done]); [by left|right; eauto].
    + split; [by left|]. by intros p ->%list_elem_of_singleton.
  - split; [by left|]. by intros p ?%elem_of_nil.
Qed.

Lemma handleRPCCall_dest range c msg server p :
  p ∈ handleRPCCall range c msg server → p.1 = id c.
Proof.
  unfold handleRPCCall.
  destruct (parseWampMessage msgCall msg) as [rpcMessage|]; [|by intros ?%elem_of_nil].
  destruct (resolve _ _ _) as [handler|].
  - destruct (handler _ _ _) as [res [err|]]; by intros ->%list_elem_of_singleton.
  - by intros ->%list_elem_of_singleton.
Qed.

Lemma deliver_dest server pubHandler uri event ids p :
  p ∈ deliver server pubHandler uri event ids →
  ∃ k c, connections server !! k = Some c ∧ p.1 = id c.
Proof.
  induction ids as [|connID ids IH]; simpl; [by intros ?%elem_of_nil|].
  unfold getConnection.
  destruct (connections server !! connID) as [c|] eqn:Hc; [|done].
  destruct pubHandler as [filter|].
  - destruct (filter uri event (extra c)) as [[] modifiedEvent]; [|done].
    intros [->|Hin]%elem_of_cons; [by exists connID, c|by apply IH].
  - intros [->|Hin]%elem_of_cons; [by exists connID, c|by apply IH].
Qed.

Lemma Publish_dest range uri event server p :
  p ∈ Publish range uri event server →
  ∃ k c, connections server !! k = Some c ∧ p.1 = id c.
Proof.
  unfold Publish. destruct (subscribers server !! uri) as [subs|];
    [|by intros ?%elem_of_nil].
  destruct (decide (size subs = 0)); [by intros ?%elem_of_nil|].
  apply deliver_dest.
Qed.

Lemma exec_connections o server :
  connections (exec o server).1 = connections server
  ∨ (∃ k e, concerns k o
            ∧ connections (exec o server).1 = <[k := mkConn k e]> (connections server))
  ∨ (∃ k, connections (exec o server).1 = delete k (connections server)).
Proof.
  destruct o as [range _uri fn|uri fnSub fnPub|range uri event|k e|r c data|k]; simpl.
  - left. unfold RegisterRPCHandler.
    destruct _uri; try done.
    + by destruct (rpcHandlers server !! s).
    + by destruct (rgxRegistered range r).
  - left. unfold RegisterSubHandler. by destruct (subHandlers server !! uri).
  - by left.
  - right. left. by exists k, e.
  - left. unfold dispatch. destruct (parseMessage data) as [[kind msg] err].
    destruct kind; try done.
    + destruct (handleSubscribe_cases (range_subHandlers r) c msg server)
        as [[->|(? & _ & ->)] _]; done.
    + destruct (handleUnSubscribe_cases (range_subscribers r) c msg server)
        as [[->|(? & ->)] _]; done.
  - right. right. by exists k.
Qed.

Lemma exec_subscribers o server :
  subscribers (exec o server).1 = subscribers server
  ∨ (∃ topic k, subscribesTo topic o ∧ concerns k o
       ∧ subscribers (exec o server).1 =
           <[topic := <[k := subscriberExists]>
                        (default ∅ (subscribers server !! topic))]>
             (subscribers server))
  ∨ (∃ topic k, subscribers (exec o server).1 =
                  alter (delete k) topic (subscribers server))
  ∨ (∃ k, subscribers (exec o server).1 = delete k <$> subscribers server).
Proof.
  destruct o as [range _uri fn|uri fnSub fnPub|range uri event|k e|r c data|k]; simpl.
  - left. unfold RegisterRPCHandler.
    destruct _uri; try done.
    + by destruct (rpcHandlers server !! s).
    + by destruct (rgxRegistered range r).
  - left. unfold RegisterSubHandler. by destruct (subHandlers server !! uri).
  - by left.
  - by left.
  - unfold dispatch. destruct (parseMessage data) as [[kind msg] err].
    destruct kind; try (by left).
    + destruct (handleSubscribe_cases (range_subHandlers r) c msg server)
        as [[->|(subMessage & Hparse & ->)] _]; [by left|].
      right. left. exists (URI subMessage), (id c).
      simpl. split; [|done]. split; [done|]. by exists subMessage.
    + destruct (handleUnSubscribe_cases (range_subscribers r) c msg server)
        as [[->|(topic & ->)] _]; [by left|].
      right. right. left. by exists topic, (id c).
  - right. right. right. by exists k.
Qed.

Lemma exec_packets o server p :
  p ∈ (exec o server).2 →
  concerns p.1 o ∨ ∃ k c, connections server !! k = Some c ∧ p.1 = id c.
Proof.
  destruct o as [range _uri fn|uri fnSub fnPub|range uri event|k e|r c data|k]; simpl;
    try (by intros ?%elem_of_nil).
  - intros Hin. right. by eapply Publish_dest.
  - unfold dispatch. destruct (parseMessage data) as [[kind msg] err].
    destruct kind; simpl; try (by intros ?%elem_of_nil).
    + intros Hin. left. symmetry. by eapply handleRPCCall_dest.
    + intros Hin. left. symmetry.
      by apply (handleSubscribe_cases (range_subHandlers r) c msg server).
    + intros Hin. left. symmetry.
      by apply (handleUnSubscribe_cases (range_subscribers r) c msg server).
    + unfold handlePublish.
      destruct (parseWampMessage msgUnsubscribe msg); [|by intros ?%elem_of_nil].
      intros Hin. right. by eapply Publish_dest.
    + unfold handleHeartbeat. intros ->%list_elem_of_singleton. by left.
Qed.

Lemma run_cons o ops server :
  run (o :: ops) server
  = ((run ops (exec o server).1).1,
     (exec o server).2 ++ (run ops (exec o server).1).2).
Proof.
  simpl. destruct (exec o server) as [server' sent]. simpl.
  by destruct (run ops server').
Qed.

(** *** Teardown *)

Lemma deleteConnection_purged connID server : purged connID (deleteConnection connID server).
Proof.
  split; simpl.
  - apply lookup_delete_eq.
  - intros topic subs. rewrite lookup_fmap.
    destruct (subscribers server !! topic) as [subs'|]; simpl; [|done].
    intros [= <-]. apply lookup_delete_eq.
Qed.

Lemma deleteConnection_registryOK connID server :
  registryOK server → registryOK (deleteConnection connID server).
Proof.
  intros Hok k c. simpl. rewrite lookup_delete.
  destruct (decide (connID = k)); [done|]. apply Hok.
Qed.

Lemma New_registryOK : registryOK New.
Proof. apply map_Forall_empty. Qed.

Lemma exec_registryOK o server : registryOK server → registryOK (exec o server).1.
Proof.
  intros Hok k c.
  destruct (exec_connections o server) as [->|[(k' & e & _ & ->)|(k' & ->)]].
  - apply Hok.
  - rewrite lookup_insert. destruct (decide (k' = k)) as [->|]; [|apply Hok].
    by intros [= <-].
  - rewrite lookup_delete. destruct (decide (k' = k)); [done|]. apply Hok.
Qed.

Lemma run_registryOK ops server : registryOK server → registryOK (run ops server).1.
Proof.
  revert server. induction ops as [|o ops IH]; intros server Hok; [done|].
  rewrite run_cons. simpl. apply IH. by apply exec_registryOK.
Qed.

Lemma exec_purged connID o server :
  ¬ concerns connID o → purged connID server → purged connID (exec o server).1.
Proof.
  intros Hnot [Hconn Hsubs]. split.
  - destruct (exec_connections o server) as [->|[(k' & e & Hk & ->)|(k' & ->)]].
    + done.
    + rewrite lookup_insert_ne; [done|]. by intros ->.
    + rewrite lookup_delete. by destruct (decide (k' = connID)).
  - intros topic subs.
    destruct (exec_subscribers o server)
      as [->|[(t & k & _ & Hk & ->)|[(t & k & ->)|(k & ->)]]].
    + apply Hsubs.
    + rewrite lookup_insert. destruct (decide (t = topic)) as [->|]; [|apply Hsubs].
      intros [= <-]. rewrite lookup_insert_ne; [|by intros ->].
      destruct (subscribers server !! topic) as [subs'|] eqn:E; simpl; [|done].
      by eapply Hsubs.
    + rewrite lookup_alter. destruct (decide (t = topic)) as [->|]; [|apply Hsubs].
      destruct (subscribers server !! topic) as [subs'|] eqn:E; simpl; [|done].
      intros [= <-]. rewrite lookup_delete.
      destruct (decide (k = connID)); [done|]. by eapply Hsubs.
    + rewrite lookup_fmap.
      destruct (subscribers server !! topic) as [subs'|] eqn:E; simpl; [|done].
      intros [= <-]. rewrite lookup_delete.
      destruct (decide (k = connID)); [done|]. by eapply Hsubs.
Qed.

Lemma run_purged connID ops server :
  registryOK server → purged connID server →
  Forall (λ o, ¬ concerns connID o) ops →
  purged connID (run ops server).1
  ∧ ∀ p, p ∈ (run ops server).2 → p.1 ≠ connID.
Proof.
  revert server. induction ops as [|o ops IH]; intros server Hok Hp Hall.
  - split; [done|]. by intros p ?%elem_of_nil.
  - apply Forall_cons in Hall as [Ho Hall]. rewrite run_cons. simpl.
    destruct (IH (exec o server).1) as [IHp IHsent];
      [by apply exec_registryOK|by apply exec_purged|done|].
    split; [done|].
    intros p [Hin|Hin]%elem_of_app; [|by apply IHsent].
    destruct (exec_packets o server p Hin) as [Hc|(k & c & Hk & Hid)].
    + intros Heq. apply Ho. by rewrite <- Heq.
    + rewrite Hid, (Hok k c Hk). intros ->. destruct Hp as [Hp _]. congruence.
Qed.

(** C7. Once [deleteConnection] has run for an id, the id is in neither the
    connection map nor any subscriber set, and that stays so through every
    later operation of other connections and of the hosting process: no
    later copy of a subscriber set holds the id and nothing is sent to it. *)
Theorem teardown_purges (connID : string) (ops : list op) (server : WS) :
  registryOK server →
  Forall (λ o, ¬ concerns connID o) ops →
  let closed := deleteConnection connID server in
  let later := (run ops closed).1 in
  purged connID closed
  ∧ purged connID later
  ∧ (∀ range topic subs, subscribers later !! topic = Some subs →
       range ≡ₚ map_to_list subs → connID ∉ range.*1)
  ∧ (∀ p, p ∈ (run ops closed).2 → p.1 ≠ connID)
  ∧ (∀ range uri event p, p ∈ Publish range uri event later → p.1 ≠ connID).
Proof.
  intros Hok Hall closed later.
  pose proof (deleteConnection_purged connID server) as Hclosed.
  pose proof (deleteConnection_registryOK connID server Hok) as Hokc.
  destruct (run_purged connID ops closed Hokc Hclosed Hall) as [Hlater Hsent].
  split; [done|]. split; [done|]. split; [|split; [done|]].
  - intros range topic subs Hsubs Hrange.
    rewrite (range_keys subs range connID Hrange).
    destruct Hlater as [_ Hl]. rewrite (Hl topic subs Hsubs). by intros [? ?].
  - intros range uri event p Hin.
    pose proof (run_registryOK ops closed Hokc) as Hokl.
    destruct (Publish_dest _ _ _ _ _ Hin) as (k & c & Hk & Hid).
    rewrite Hid, (Hokl k c Hk). intros ->. destruct Hlater as [Hl _].
    unfold later in Hk. congruence.
Qed.

(** *** Lifetime of a subscriber set *)

Lemma exec_subscribers_is_Some o server topic :
  is_Some (subscribers server !! topic) →
  is_Some (subscribers (exec o server).1 !! topic).
Proof.
  intros Hsome.
  destruct (exec_subscribers o server)
    as [->|[(t & k & _ & _ & ->)|[(t & k & ->)|(k & ->)]]].
  - done.
  - rewrite lookup_insert. by destruct (decide (t = topic)).
  - rewrite lookup_alter. destruct (decide (t = topic)) as [->|]; [|done].
    by apply fmap_is_Some.
  - rewrite lookup_fmap. by apply fmap_is_Some.
Qed.

Lemma exec_subscribers_empty o server topic :
  ¬ subscribesTo topic o →
  subscribers server !! topic = Some ∅ →
  subscribers (exec o server).1 !! topic = Some ∅.
Proof.
  intros Hnot Hempty.
  destruct (exec_subscribers o server)
    as [->|[(t & k & Ht & _ & ->)|[(t & k & ->)|(k & ->)]]].
  - done.
  - rewrite lookup_insert_ne; [done|]. by intros ->.
  - rewrite lookup_alter. destruct (decide (t = topic)) as [->|]; [|done].
    rewrite Hempty. simpl. by rewrite delete_empty.
  - rewrite lookup_fmap, Hempty. simpl. by rewrite delete_empty.
Qed.

Lemma run_subscribers_is_Some ops server topic :
  is_Some (subscribers server !! topic) →
  is_Some (subscribers (run ops server).1 !! topic).
Proof.
  revert server. induction ops as [|o ops IH]; intros server Hsome; [done|].
  rewrite run_cons. simpl. apply IH. by apply exec_subscribers_is_Some.
Qed.

Lemma run_subscribers_empty ops server topic :
  Forall (λ o, ¬ subscribesTo topic o) ops →
  subscribers server !! topic = Some ∅ →
  subscribers (run ops server).1 !! topic = Some ∅.
Proof.
  revert server. induction ops as [|o ops IH]; intros server Hall Hempty; [done|].
  apply Forall_cons in Hall as [Ho Hall].
  rewrite run_cons. simpl. apply IH; [done|]. by apply exec_subscribers_empty.
Qed.

(** C10. A topic that has a subscriber set keeps one through every
    operation, be it empty: an unsubscribe of a member leaves the set with
    the other members, a later unsubscribe on the topic is never answered
    with the not-registered error, and once the set is empty it stays so
    until a subscribe for the topic, every unsubscribe on it being answered
    with the not-subscribed error. *)
Theorem subscriber_set_never_removed (topic : string) (ops : list op)
    (server : WS) :
  is_Some (subscribers server !! topic) →
  let later := (run ops server).1 in
  let failure c err :=
    [send c (Encoded (createMessage msgUnSubscribeError
               [AString topic; createError err]))] in
  let unsubscribes range c msg :=
    (∃ unsubMessage, parseWampMessage msgUnsubscribe msg = inl unsubMessage
                     ∧ URI unsubMessage = topic)
    ∧ range ≡ₚ map_to_list (subscribers later) in
  is_Some (subscribers later !! topic)
  ∧ (∀ range c msg subs, unsubscribes range c msg →
       subscribers later !! topic = Some subs → is_Some (subs !! id c) →
       subscribers (handleUnSubscribe range c msg later).1 !! topic
         = Some (delete (id c) subs))
  ∧ (∀ range c msg, unsubscribes range c msg →
       (handleUnSubscribe range c msg later).2 ≠ failure c ErrSubURINotRegistered)
  ∧ (subscribers server !! topic = Some ∅ →
     Forall (λ o, ¬ subscribesTo topic o) ops →
     subscribers later !! topic = Some ∅
     ∧ ∀ range c msg, unsubscribes range c msg →
         handleUnSubscribe range c msg later = (later, failure c ErrNotSubscribes)).
Proof.
  intros Hsome later failure unsubscribes.
  pose proof (run_subscribers_is_Some ops server topic Hsome) as Hlater.
  fold later in Hlater.
  assert (∀ range c msg subs, unsubscribes range c msg →
            subscribers later !! topic = Some subs →
            handleUnSubscribe range c msg later =
              match subs !! id c with
              | Some _ =>
                  (set_subscribers later
                     (alter (delete (id c)) topic (subscribers later)),
                   [send c (Encoded (createMessage msgUnsubscribed [AString topic]))])
              | None => (later, failure c ErrNotSubscribes)
              end) as Hun.
  { intros range c msg subs [(unsubMessage & Hparse & Huri) Hrange] Hsubs.
    unfold handleUnSubscribe. rewrite Hparse, Huri.
    rewrite (unsubscribeLoop_present range c topic subs later).
    - done.
    - by eapply range_NoDup.
    - by apply (range_lookup (subscribers later) range). }
  split; [done|]. split; [|split].
  - intros range c msg subs Hu Hsubs [b Hb].
    rewrite (Hun range c msg subs Hu Hsubs), Hb. simpl.
    by rewrite lookup_alter_eq, Hsubs.
  - intros range c msg Hu. destruct Hlater as [subs Hsubs].
    rewrite (Hun range c msg subs Hu Hsubs).
    destruct (subs !! id c); simpl; unfold failure; by intros [= ].
  - intros Hempty Hall.
    pose proof (run_subscribers_empty ops server topic Hall Hempty) as Hle.
    fold later in Hle. split; [done|].
    intros range c msg Hu. rewrite (Hun range c msg ∅ Hu Hle).
    by rewrite lookup_empty.
Qed.

End Properties.

(** ** The statements on the sample deployment *)

(** bob, whose context the filter refuses, gets nothing; alice before him
    and the vanished dave after him are handled on their own. *)
Lemma publish_per_subscriber_witness :
  ∃ sent,
    Publish (range_subscriberIds Sample.orders) "news.sports" (AString "goal")
            Sample.server
    = deliver Sample.server (pubHandlerOf "news.sports" Sample.server)
              "news.sports" (AString "goal") ["alice"]
      ++ sent
      ++ deliver Sample.server (pubHandlerOf "news.sports" Sample.server)
                 "news.sports" (AString "goal") ["dave"]
    ∧ sent = [].
Proof.
  destruct (publish_per_subscriber
              (range_subscriberIds Sample.orders) "news.sports" (AString "goal")
              Sample.server
              (default ∅ (subscribers Sample.server !! "news.sports"))
              ["alice"] "bob" ["dave"])
    as (sent & Heq & _ & Hdeny & _).
  - vm_compute. reflexivity.
  - reflexivity.
  - vm_compute. reflexivity.
  - exists sent. split; [exact Heq|].
    apply (Hdeny Sample.bob Sample.membersOnly); vm_compute; reflexivity.
Defined.

(** carol subscribes to news.sports. *)
Lemma subscribe_outcomes_witness :
  (handleSubscribe (ext := Sample.codec) (range_subHandlers Sample.orders)
     Sample.carol [AString "news.sports"] Sample.server).2
  = [("carol", Encoded (mkMessage msgSubscribed [AString "news.sports"]))].
Proof.
  destruct (subscribe_outcomes (ext := Sample.codec)
              (range_subHandlers Sample.orders) Sample.carol
              [AString "news.sports"] (mkWampMessage ANil "news.sports" [])
              Sample.server eq_refl (reflexivity _))
    as [_ Hmatch].
  destruct Hmatch as (prefix & handler & Hfind & _ & _ & Hyes & _).
  - exists "news.", (mkSubHandler Sample.allowAll None).
    split; vm_compute; reflexivity.
  - vm_compute in Hfind. injection Hfind as <- <-.
    rewrite Hyes; reflexivity.
Defined.

(** alice leaves news.sports. *)
Lemma unsubscribe_outcomes_witness :
  (handleUnSubscribe (ext := Sample.codec) (range_subscribers Sample.orders)
     Sample.alice [AString "news.sports"] Sample.server).2
  = [("alice", Encoded (mkMessage msgUnsubscribed [AString "news.sports"]))].
Proof.
  destruct (unsubscribe_outcomes (ext := Sample.codec)
              (range_subscribers Sample.orders) Sample.alice
              [AString "news.sports"] (mkWampMessage ANil "news.sports" [])
              Sample.server eq_refl (reflexivity _))
    as (Hmember & _).
  rewrite (Hmember (default ∅ (subscribers Sample.server !! "news.sports"))).
  - reflexivity.
  - vm_compute. reflexivity.
  - exists true. vm_compute. reflexivity.
Defined.

(** math.add has an exact handler and matches the pattern as well. *)
Lemma exact_handler_preferred_witness :
  resolve (ext := Sample.codec) (range_rpcRgxHandlers Sample.orders) "math.add"
          Sample.server
  = Some Sample.add.
Proof.
  apply (exact_handler_preferred (ext := Sample.codec)
           (range_rpcRgxHandlers Sample.orders) Sample.carol
           [AString "7"; AString "math.add"; ANumber 1; ANumber 2]
           (mkWampMessage (AString "7") "math.add" [ANumber 1; ANumber 2])
           Sample.server eq_refl).
  vm_compute. reflexivity.
Defined.

Lemma call_gets_one_response_witness :
  length (handleRPCCall (ext := Sample.codec) (range_rpcRgxHandlers Sample.orders)
            Sample.carol [AString "7"; AString "math.add"; ANumber 1; ANumber 2]
            Sample.server) = 1.
Proof.
  destruct (call_gets_one_response (ext := Sample.codec)
              (range_rpcRgxHandlers Sample.orders) Sample.carol
              [AString "7"; AString "math.add"; ANumber 1; ANumber 2]
              (mkWampMessage (AString "7") "math.add" [ANumber 1; ANumber 2])
              Sample.server eq_refl (reflexivity _))
    as [(handler & res & _ & _ & ->)
       |[(handler & res & err & _ & _ & ->)|(_ & _ & ->)]];
    reflexivity.
Defined.

(** The exact uri, a second pattern with the source text of the registered
    one, and the prefix are all refused. *)
Lemma duplicate_registration_rejected_witness :
  (RegisterRPCHandler (range_rpcRgxHandlers Sample.orders) (AString "math.add")
     Sample.echo Sample.server).1 = Sample.server
  ∧ (RegisterRPCHandler (range_rpcRgxHandlers Sample.orders)
       (ARegexp Sample.mathRgx') Sample.add Sample.server).1 = Sample.server
  ∧ (RegisterSubHandler "news." Sample.allowNone None Sample.server).1
    = Sample.server.
Proof.
  destruct (duplicate_registration_rejected
              (range_rpcRgxHandlers Sample.orders) Sample.server (reflexivity _))
    as (Hexact & Hpattern & Hprefix).
  split; [|split].
  - rewrite Hexact; [reflexivity|]. exists Sample.add. vm_compute. reflexivity.
  - rewrite (Hpattern Sample.mathRgx' Sample.mathRgx); [reflexivity| |reflexivity].
    exists Sample.echo. vm_compute. reflexivity.
  - rewrite Hprefix; [reflexivity|].
    exists (mkSubHandler Sample.allowAll None). vm_compute. reflexivity.
Defined.

(** bob is torn down; then an event is published and alice's heartbeat is
    echoed. *)
Lemma teardown_purges_witness :
  purged "bob" (deleteConnection "bob" Sample.server)
  ∧ ∀ p,
      p ∈ (run (ext := Sample.codec)
             [OpPublish [("alice", true); ("dave", true)] "news.sports"
                        (AString "goal");
              OpDispatch Sample.orders Sample.alice "beat"]
             (deleteConnection "bob" Sample.server)).2 →
      p.1 ≠ "bob".
Proof.
  destruct (teardown_purges (ext := Sample.codec) "bob"
              [OpPublish [("alice", true); ("dave", true)] "news.sports"
                         (AString "goal");
               OpDispatch Sample.orders Sample.alice "beat"]
              Sample.server)
    as (Hclosed & _ & _ & Hsent & _).
  - unfold registryOK. apply (bool_decide_unpack _). vm_compute. exact I.
  - repeat constructor; simpl; [tauto|discriminate].
  - split; [exact Hclosed|exact Hsent].
Defined.



(** [receive] does not leave the turn of the loop on a decoding error: what
    happens to the frame is decided by the kind returned with the error. A
    decoder that returned the heartbeat kind with its error would have the
    frame echoed. *)
Remark dispatch_relies_on_failure_kind :
  dispatch (ext := Sample.codecHeartbeat) Sample.orders Sample.alice "x"
           Sample.server
  = (Sample.server, [("alice", Raw "x")]).
Proof. reflexivity. Qed.

Lemma register_other_type_is_noop_witness :
  RegisterRPCHandler (range_rpcRgxHandlers Sample.orders) (ANumber 5) Sample.add
                     Sample.server
  = (Sample.server, None).
Proof.
  apply (register_other_type_is_noop
           (range_rpcRgxHandlers Sample.orders) (ANumber 5) Sample.add
           Sample.server); discriminate.
Defined.

(** alice leaves news.sports, bob and dave are torn down: the topic keeps
    its set. *)
Lemma subscriber_set_never_removed_witness :
  is_Some (subscribers
             (run (ext := Sample.codec)
                [OpDispatch Sample.orders Sample.alice "unsub-sports";
                 OpDeleteConnection "bob";
                 OpDeleteConnection "dave"]
                Sample.server).1 !! "news.sports").
Proof.
  apply (subscriber_set_never_removed (ext := Sample.codec) "news.sports"
           [OpDispatch Sample.orders Sample.alice "unsub-sports";
            OpDeleteConnection "bob";
            OpDeleteConnection "dave"]
           Sample.server).
  exists (default ∅ (subscribers Sample.server !! "news.sports")).
  vm_compute. reflexivity.
Defined.

(** ** Runs of the sample deployment *)

(** carol joins news.sports; the next event reaches her and alice, not bob,
    whom the filter refuses, nor dave, who has no connection. *)
Example sample_subscribe_then_publish :
  let joined :=
    (dispatch (ext := Sample.codec) Sample.orders Sample.carol "sub-sports"
              Sample.server).1 in
  Publish (map_to_list (default ∅ (subscribers joined !! "news.sports")))
          "news.sports" (AString "goal") joined
  = [("carol", Encoded (mkMessage msgEvent
                 [AString "news.sports"; ASeq [AString "goal"; ANil]]));
     ("alice", Encoded (mkMessage msgEvent
                 [AString "news.sports"; ASeq [AString "goal"; ABool true]]))].
Proof. vm_compute. reflexivity. Qed.

(** news.empty has a set without carol, weather has no set. *)
Example sample_unsubscribe_errors :
  (handleUnSubscribe (ext := Sample.codec) (range_subscribers Sample.orders)
     Sample.carol [AString "news.empty"] Sample.server).2
  = [("carol", Encoded (mkMessage msgUnSubscribeError
                 [AString "news.empty"; AErrorObject ErrNotSubscribes]))]
  ∧ (handleUnSubscribe (ext := Sample.codec) (range_subscribers Sample.orders)
       Sample.carol [AString "weather"] Sample.server).2
    = [("carol", Encoded (mkMessage msgUnSubscribeError
                   [AString "weather"; AErrorObject ErrSubURINotRegistered]))].
Proof. split; vm_compute; reflexivity. Qed.

(** private. refuses everybody, weather matches no prefix. *)
Example sample_subscribe_errors :
  (handleSubscribe (ext := Sample.codec) (range_subHandlers Sample.orders)
     Sample.carol [AString "private.x"] Sample.server).2
  = [("carol", Encoded (mkMessage msgSubscribeError
                 [AString "private.x"; AErrorObject ErrForbidden]))]
  ∧ (handleSubscribe (ext := Sample.codec) (range_subHandlers Sample.orders)
       Sample.carol [AString "weather"] Sample.server).2
    = [("carol", Encoded (mkMessage msgSubscribeError
                   [AString "weather"; AErrorObject ErrSubURINotRegistered]))].
Proof. split; vm_compute; reflexivity. Qed.

(** math.sub only matches the pattern, time.now matches nothing, and
    math.add fails on one argument. *)
Example sample_calls :
  handleRPCCall (ext := Sample.codec) (range_rpcRgxHandlers Sample.orders)
    Sample.carol [AString "8"; AString "math.sub"; ANumber 1] Sample.server
  = [("carol", Encoded (mkMessage msgCallResult
                 [AString "8"; ASeq [ANumber 1]]))]
  ∧ handleRPCCall (ext := Sample.codec) (range_rpcRgxHandlers Sample.orders)
      Sample.carol [AString "9"; AString "time.now"] Sample.server
    = [("carol", Encoded (mkMessage msgCallError
                   [AString "9"; AErrorObject ErrRPCNotRegistered]))]
  ∧ handleRPCCall (ext := Sample.codec) (range_rpcRgxHandlers Sample.orders)
      Sample.carol [AString "9"; AString "math.add"] Sample.server
    = [("carol", Encoded (mkMessage msgCallError
                   [AString "9";
                    AErrorObject (errors_New "two numbers expected")]))].
Proof. repeat split; vm_compute; reflexivity. Qed.

(** * Further properties of the server *)

Section Coverage.
Context {ext : External}.

(** ** Registration *)

(** X1. Registering a handler for an exact uri that has none succeeds,
    stores the handler and leaves every other uri as it was; from then on a
    call for that uri is answered with what the handler returns, whatever
    patterns are registered. *)
Theorem register_then_call (range range' : list (Regexp * RPCHandler))
    (uri : string) (fn : RPCHandler) (c : conn) (msg : list Any)
    (rpcMessage : wampMessage) (server : WS) :
  rpcHandlers server !! uri = None →
  parseWampMessage msgCall msg = inl rpcMessage →
  URI rpcMessage = uri →
  let registered := RegisterRPCHandler range (AString uri) fn server in
  registered.2 = None
  ∧ rpcHandlers registered.1 !! uri = Some fn
  ∧ (∀ uri', uri' ≠ uri →
       rpcHandlers registered.1 !! uri' = rpcHandlers server !! uri')
  ∧ rpcRgxHandlers registered.1 = rpcRgxHandlers server
  ∧ handleRPCCall range' c msg registered.1
    = [send c (Encoded
         match fn (id c) uri (Args rpcMessage) with
         | (_, Some err) =>
             createMessage msgCallError [CallID rpcMessage; createError err]
         | (res, None) =>
             createMessage msgCallResult [CallID rpcMessage; res]
         end)].
Proof.
  intros Hfree Hparse Huri. unfold RegisterRPCHandler. rewrite Hfree. simpl.
  split; [done|]. split; [apply lookup_insert_eq|].
  split; [by intros uri' Hne; rewrite lookup_insert_ne|]. split; [done|].
  unfold handleRPCCall, resolve. rewrite Hparse, Huri. simpl.
  rewrite lookup_insert_eq. by destruct (fn _ _ _) as [res [err|]].
Qed.

Lemma rgxRegistered_false range rgx :
  rgxRegistered range rgx = false ↔
  ∀ k fn, (k, fn) ∈ range → rgx_String k ≠ rgx_String rgx.
Proof.
  split.
  - intros Hf k fn Hin Heq.
    assert (rgxRegistered range rgx = true) as Ht; [|congruence].
    apply rgxRegistered_true. by exists k, fn.
  - intros Hall. destruct (rgxRegistered range rgx) eqn:E; [|done].
    apply rgxRegistered_true in E as (k & fn & Hin & Heq).
    by destruct (Hall k fn Hin).
Qed.

(** X2. Registering a pattern whose source text no stored pattern has
    succeeds and stores it beside the others, the exact-uri table untouched;
    after that, any pattern with the same source text is refused, be it
    another compiled object. *)
Theorem register_pattern_once (range range2 : list (Regexp * RPCHandler))
    (rgx rgx2 : Regexp) (fn fn2 : RPCHandler) (server : WS) :
  range ≡ₚ map_to_list (rpcRgxHandlers server) →
  (∀ k, is_Some (rpcRgxHandlers server !! k) → rgx_String k ≠ rgx_String rgx) →
  let registered := RegisterRPCHandler range (ARegexp rgx) fn server in
  range2 ≡ₚ map_to_list (rpcRgxHandlers registered.1) →
  rgx_String rgx2 = rgx_String rgx →
  registered.2 = None
  ∧ rpcRgxHandlers registered.1 = <[rgx := fn]> (rpcRgxHandlers server)
  ∧ rpcHandlers registered.1 = rpcHandlers server
  ∧ RegisterRPCHandler range2 (ARegexp rgx2) fn2 registered.1
    = (registered.1,
       Some (errors_Wrap ErrHandlerAlreadyRegistered
                         "when registering rgx rpcHandler")).
Proof.
  intros Hrange Hfresh registered. subst registered. unfold RegisterRPCHandler at 1 2 3 4.
  assert (rgxRegistered range rgx = false) as ->.
  { apply rgxRegistered_false. intros k h Hin. apply Hfresh. exists h.
    by apply (range_lookup (rpcRgxHandlers server) range). }
  simpl. intros Hrange2 Htext. repeat split.
  unfold RegisterRPCHandler.
  assert (rgxRegistered range2 rgx2 = true) as ->; [|done].
  apply rgxRegistered_true. exists rgx, fn. split; [|done].
  apply (range_lookup _ range2 _ _ Hrange2). simpl. apply lookup_insert_eq.
Qed.

(** X3. When no exact handler exists for a uri and exactly one stored
    pattern matches it, the call is resolved to that pattern's handler in
    every order of enumeration. *)
Theorem resolve_single_pattern (range : list (Regexp * RPCHandler))
    (uri : string) (rgx : Regexp) (handler : RPCHandler) (server : WS) :
  range ≡ₚ map_to_list (rpcRgxHandlers server) →
  rpcHandlers server !! uri = None →
  rpcRgxHandlers server !! rgx = Some handler →
  MatchString rgx uri = true →
  (∀ rgx', is_Some (rpcRgxHandlers server !! rgx') →
     MatchString rgx' uri = true → rgx' = rgx) →
  resolve range uri server = Some handler.
Proof.
  intros Hrange Hexact Hrgx Hmatch Hone. unfold resolve. rewrite Hexact.
  destruct (scanRgxHandlers range uri) as [h|] eqn:Hscan.
  - destruct (scanRgxHandlers_Some _ _ _ Hscan) as (rgx' & Hin & Hm).
    apply (range_lookup _ range _ _ Hrange) in Hin.
    assert (rgx' = rgx) as -> by (apply Hone; [by exists h|done]).
    congruence.
  - exfalso. rewrite scanRgxHandlers_None in Hscan.
    rewrite (Hscan rgx handler) in Hmatch; [done|].
    by apply (range_lookup _ range _ _ Hrange).
Qed.

(** X4. No operation of the server removes or replaces a stored exact-uri
    handler or a stored subscription handler. *)
Theorem registrations_persist (ops : list op) (server : WS) :
  (∀ uri handler, rpcHandlers server !! uri = Some handler →
     rpcHandlers (run ops server).1 !! uri = Some handler)
  ∧ (∀ prefix handler, subHandlers server !! prefix = Some handler →
       subHandlers (run ops server).1 !! prefix = Some handler).
Proof.
  revert server. induction ops as [|o ops IH]; intros server; [done|].
  rewrite run_cons. simpl. destruct (IH (exec o server).1) as [IHr IHs].
  assert ((∀ uri handler, rpcHandlers server !! uri = Some handler →
             rpcHandlers (exec o server).1 !! uri = Some handler)
          ∧ (∀ prefix handler, subHandlers server !! prefix = Some handler →
               subHandlers (exec o server).1 !! prefix = Some handler))
    as [Hr Hs]; [|split; eauto].
  destruct o as [range _uri fn|uri fnSub fnPub|range uri event|k e|r c data|k];
    simpl; try done.
  - unfold RegisterRPCHandler. destruct _uri; try done.
    + destruct (rpcHandlers server !! s) eqn:E; [done|]. simpl. split; [|done].
      intros uri handler Hh. rewrite lookup_insert_ne; [done|]. congruence.
    + by destruct (rgxRegistered range r).
  - unfold RegisterSubHandler.
    destruct (subHandlers server !! uri) eqn:E; [done|]. simpl. split; [done|].
    intros prefix handler Hh. rewrite lookup_insert_ne; [done|]. congruence.
  - unfold dispatch. destruct (parseMessage data) as [[kind msg] err].
    destruct kind; try done.
    + destruct (handleSubscribe_cases (range_subHandlers r) c msg server)
        as [[->|(? & _ & ->)] _]; done.
    + destruct (handleUnSubscribe_cases (range_subscribers r) c msg server)
        as [[->|(? & ->)] _]; done.
Qed.
(** ** Subscriptions *)

(** The possible results of [handleSubscribe]. *)
Lemma handleSubscribe_forms range c msg server :
  (handleSubscribe range c msg server = (server, [])
   ∧ ∃ err, parseWampMessage msgSubscribe msg = inr err)
  ∨ ∃ subMessage,
      parseWampMessage msgSubscribe msg = inl subMessage
      ∧ ((∃ err,
            handleSubscribe range c msg server =
              (server, [send c (Encoded (createMessage msgSubscribeError
                          [AString (URI subMessage); createError err]))]))
         ∨ handleSubscribe range c msg server =
             (set_subscribers server
                (<[URI subMessage := <[id c := subscriberExists]>
                     (default ∅ (subscribers server !! URI subMessage))]>
                   (subscribers server)),
              [send c (Encoded (createMessage msgSubscribed
                         [AString (URI subMessage)]))])).
Proof.
  unfold handleSubscribe.
  destruct (parseWampMessage msgSubscribe msg) as [subMessage|err] eqn:Hparse.
  - right. exists subMessage. split; [done|]. rewrite subscribeLoop_find.
    destruct (find _ range) as [[prefix handler]|].
    + destruct (h_subHandler handler _ _ _); [by right|left; by eexists].
    + left. by eexists.
  - left. split; [done|by exists err].
Qed.

(** X5. When exactly one registered prefix is a prefix of the topic, the
    answer to a subscribe request is decided by that prefix's handler in
    every order of enumeration. *)
Theorem subscribe_single_prefix (range : list (string * subHandler)) (c : conn)
    (msg : list Any) (subMessage : wampMessage) (prefix : string)
    (handler : subHandler) (server : WS) :
  parseWampMessage msgSubscribe msg = inl subMessage →
  range ≡ₚ map_to_list (subHandlers server) →
  subHandlers server !! prefix = Some handler →
  String.prefix prefix (URI subMessage) = true →
  (∀ prefix', is_Some (subHandlers server !! prefix') →
     String.prefix prefix' (URI subMessage) = true → prefix' = prefix) →
  let topic := URI subMessage in
  handleSubscribe range c msg server =
    if h_subHandler handler (id c) topic (Args subMessage) then
      (set_subscribers server
         (<[topic := <[id c := subscriberExists]>
                        (default ∅ (subscribers server !! topic))]>
            (subscribers server)),
       [send c (Encoded (createMessage msgSubscribed [AString topic]))])
    else
      (server,
       [send c (Encoded (createMessage msgSubscribeError
                  [AString topic; createError ErrForbidden]))]).
Proof.
  intros Hparse Hrange Hreg Hpre Hone topic.
  unfold handleSubscribe. rewrite Hparse, subscribeLoop_find. fold topic.
  destruct (find (λ e, String.prefix e.1 topic) range) as [[p h]|] eqn:Hfind.
  - destruct (find_range_Some _ _ _ Hfind) as [Hin Hp]. simpl in Hp.
    apply (range_lookup _ range _ _ Hrange) in Hin.
    assert (p = prefix) as -> by (apply Hone; [by exists h|done]).
    assert (h = handler) as -> by congruence. done.
  - exfalso. rewrite find_range_None in Hfind.
    specialize (Hfind (prefix, handler)). simpl in Hfind. fold topic in Hpre.
    rewrite Hfind in Hpre; [done|]. by apply (range_lookup _ range _ _ Hrange).
Qed.

(** X6. A subscribe that is answered Subscribed followed by an unsubscribe
    of the same connection on the same topic is answered Unsubscribed and
    leaves the topic with the members it had without that connection, every
    other topic as it was; when the topic had a set without the connection,
    the server is back in the state before the subscribe. *)
Theorem subscribe_unsubscribe_roundtrip (range : list (string * subHandler))
    (range' : list (string * subscribersMap)) (c : conn)
    (msg msg' : list Any) (subMessage unsubMessage : wampMessage) (server : WS) :
  parseWampMessage msgSubscribe msg = inl subMessage →
  parseWampMessage msgUnsubscribe msg' = inl unsubMessage →
  URI unsubMessage = URI subMessage →
  let topic := URI subMessage in
  let joined := handleSubscribe range c msg server in
  joined.2 = [send c (Encoded (createMessage msgSubscribed [AString topic]))] →
  range' ≡ₚ map_to_list (subscribers joined.1) →
  let left := handleUnSubscribe range' c msg' joined.1 in
  left.2 = [send c (Encoded (createMessage msgUnsubscribed [AString topic]))]
  ∧ subscribers left.1 !! topic
    = Some (delete (id c) (default ∅ (subscribers server !! topic)))
  ∧ (∀ topic', topic' ≠ topic →
       subscribers left.1 !! topic' = subscribers server !! topic')
  ∧ (∀ subs, subscribers server !! topic = Some subs → subs !! id c = None →
       left.1 = server).
Proof.
  intros Hparse Hparse' Huri topic joined Hanswer Hrange' left.
  subst left joined.
  destruct (handleSubscribe_forms range c msg server)
    as [[Hr _]|(m & Hm & [[err Hr]| Hr])];
    [by rewrite Hr in Hanswer| |];
    assert (m = subMessage) as -> by congruence; rewrite Hr in *; simpl in *;
    [by inversion Hanswer|].
  fold topic in Hrange' |- *.
  unfold handleUnSubscribe. rewrite Hparse', Huri. fold topic.
  rewrite (unsubscribeLoop_present range' c topic
             (<[id c := subscriberExists]> (default ∅ (subscribers server !! topic)))).
  - rewrite lookup_insert_eq. simpl.
    rewrite alter_insert_eq, delete_insert_eq.
    split; [done|]. split; [apply lookup_insert_eq|].
    split; [by intros topic' Hne; rewrite lookup_insert_ne|].
    intros subs Hsubs Hnot. rewrite Hsubs. simpl.
    rewrite (delete_id _ _ Hnot), (insert_id _ _ _ Hsubs). by destruct server.
  - by eapply range_NoDup.
  - apply (range_lookup _ range' _ _ Hrange'). simpl. apply lookup_insert_eq.
Qed.

(** X7. A subscribe request of a connection that is already a member of the
    topic's subscriber set leaves the server unchanged, whatever the answer. *)
Theorem subscribe_member_unchanged (range : list (string * subHandler))
    (c : conn) (msg : list Any) (subMessage : wampMessage)
    (subs : subscribersMap) (server : WS) :
  parseWampMessage msgSubscribe msg = inl subMessage →
  subscribers server !! URI subMessage = Some subs →
  subs !! id c = Some subscriberExists →
  (handleSubscribe range c msg server).1 = server.
Proof.
  intros Hparse Hsubs Hmember.
  destruct (handleSubscribe_forms range c msg server)
    as [[-> _]|(m & Hm & [[err ->]| ->])]; try done.
  assert (m = subMessage) as -> by congruence. simpl.
  rewrite Hsubs. simpl.
  rewrite (insert_id _ _ _ Hmember), (insert_id _ _ _ Hsubs). by destruct server.
Qed.

(** X8. After an unsubscribe of a member, the same request again is answered
    with the not-subscribed error and changes nothing. *)
Theorem unsubscribe_twice (range range' : list (string * subscribersMap))
    (c : conn) (msg : list Any) (unsubMessage : wampMessage)
    (subs : subscribersMap) (server : WS) :
  parseWampMessage msgUnsubscribe msg = inl unsubMessage →
  range ≡ₚ map_to_list (subscribers server) →
  subscribers server !! URI unsubMessage = Some subs →
  is_Some (subs !! id c) →
  let left := (handleUnSubscribe range c msg server).1 in
  range' ≡ₚ map_to_list (subscribers left) →
  handleUnSubscribe range' c msg left =
    (left, [send c (Encoded (createMessage msgUnSubscribeError
                      [AString (URI unsubMessage); createError ErrNotSubscribes]))]).
Proof.
  intros Hparse Hrange Hsubs [b Hb] left. subst left.
  unfold handleUnSubscribe. rewrite Hparse.
  rewrite (unsubscribeLoop_present range c (URI unsubMessage) subs server);
    [|by eapply range_NoDup|by apply (range_lookup _ range _ _ Hrange)].
  rewrite Hb. simpl. intros Hrange'.
  rewrite (unsubscribeLoop_present range' c (URI unsubMessage) (delete (id c) subs)).
  - by rewrite lookup_delete_eq.
  - by eapply range_NoDup.
  - apply (range_lookup _ range' _ _ Hrange'). simpl.
    by rewrite lookup_alter_eq, Hsubs.
Qed.

Lemma deliver_connections server server' pubHandler uri event ids :
  connections server' = connections server →
  deliver server' pubHandler uri event ids = deliver server pubHandler uri event ids.
Proof.
  intros Hc. induction ids as [|k ids IH]; simpl; [done|].
  unfold getConnection. rewrite Hc, IH. done.
Qed.

(** X9. Subscribing to or unsubscribing from a topic changes nothing for the
    other topics: a publish on any other topic sends what it would have sent
    before. *)
Theorem membership_is_per_topic (rangeSub : list (string * subHandler))
    (rangeUnsub : list (string * subscribersMap)) (c : conn) (msg : list Any)
    (range : list (string * bool)) (uri : string) (event : Any) (server : WS) :
  (∀ subMessage, parseWampMessage msgSubscribe msg = inl subMessage →
     URI subMessage ≠ uri) →
  (∀ unsubMessage, parseWampMessage msgUnsubscribe msg = inl unsubMessage →
     URI unsubMessage ≠ uri) →
  Publish range uri event (handleSubscribe rangeSub c msg server).1
    = Publish range uri event server
  ∧ Publish range uri event (handleUnSubscribe rangeUnsub c msg server).1
    = Publish range uri event server.
Proof.
  intros Hsub Hunsub. split.
  - destruct (handleSubscribe_forms rangeSub c msg server)
      as [[-> _]|(m & Hm & [[err ->]| ->])]; try done.
    unfold Publish, pubHandlerOf. simpl.
    rewrite lookup_insert_ne; [|by apply Hsub].
    by rewrite (deliver_connections server).
  - unfold handleUnSubscribe.
    destruct (parseWampMessage msgUnsubscribe msg) as [m|] eqn:Hm; [|done].
    pose proof (unsubscribeLoop_cases rangeUnsub c (URI m) server) as Hc.
    destruct (unsubscribeLoop rangeUnsub c (URI m) server) as [[s' sent]|]; [|done].
    destruct Hc as [[->| ->] _]; [done|].
    unfold Publish, pubHandlerOf. simpl.
    rewrite lookup_alter_ne; [|by apply Hunsub].
    by rewrite (deliver_connections server).
Qed.
(** ** Connection registry *)

(** X10. A connection that was added is found under its id, replacing any
    connection stored there before; after its teardown the lookup fails with
    the not-found error; lookups of other ids are unaffected by both. *)
Theorem getConnection_after_add_delete (connID : string) (extra : Any)
    (server : WS) :
  getConnection connID (addConnection connID extra server).1
    = inl (mkConn connID extra)
  ∧ getConnection connID (deleteConnection connID server)
    = inr (errors_New "NOT FOUND")
  ∧ ∀ k, k ≠ connID →
      getConnection k (addConnection connID extra server).1 = getConnection k server
      ∧ getConnection k (deleteConnection connID server) = getConnection k server.
Proof.
  unfold getConnection. simpl. rewrite lookup_insert_eq, lookup_delete_eq.
  split; [done|]. split; [done|]. intros k Hne.
  by rewrite lookup_insert_ne, lookup_delete_ne.
Qed.

Lemma fmap_delete_absent (connID : string) (m : gmap string subscribersMap) :
  (∀ topic subs, m !! topic = Some subs → subs !! connID = None) →
  delete connID <$> m = m.
Proof.
  intros Habsent. apply map_eq. intros topic. rewrite lookup_fmap.
  destruct (m !! topic) as [subs|] eqn:E; simpl; [|done].
  by rewrite (delete_id _ _ (Habsent topic subs E)).
Qed.

(** X11. Adding a connection under an id that is neither stored nor a member
    of any subscriber set and tearing it down again gives back the server as
    it was; tearing down such an id alone changes nothing. *)
Theorem add_delete_roundtrip (connID : string) (extra : Any) (server : WS) :
  purged connID server →
  deleteConnection connID (addConnection connID extra server).1 = server
  ∧ deleteConnection connID server = server.
Proof.
  intros [Hconn Hsubs]. unfold deleteConnection, addConnection. simpl.
  rewrite delete_insert_eq, (delete_id _ _ Hconn), (fmap_delete_absent _ _ Hsubs).
  by destruct server.
Qed.

(** X12. The teardown of a connection leaves the handler tables, the other
    connections, the set of topics that have a subscriber set and the
    memberships of every other id as they were. *)
Theorem deleteConnection_spares_others (connID : string) (server : WS) :
  let closed := deleteConnection connID server in
  rpcHandlers closed = rpcHandlers server
  ∧ rpcRgxHandlers closed = rpcRgxHandlers server
  ∧ subHandlers closed = subHandlers server
  ∧ (∀ k, k ≠ connID → connections closed !! k = connections server !! k)
  ∧ (∀ topic, is_Some (subscribers closed !! topic)
              ↔ is_Some (subscribers server !! topic))
  ∧ (∀ topic subs k, k ≠ connID → subscribers server !! topic = Some subs →
       ∃ subs', subscribers closed !! topic = Some subs' ∧ subs' !! k = subs !! k).
Proof.
  simpl. repeat split; try done.
  - intros k Hne. by apply lookup_delete_ne.
  - rewrite lookup_fmap. apply fmap_is_Some.
  - rewrite lookup_fmap. intros Hs. by apply fmap_is_Some.
  - intros topic subs k Hne Hsubs. exists (delete connID subs).
    rewrite lookup_fmap, Hsubs. split; [done|]. by apply lookup_delete_ne.
Qed.

(** X13. Tearing a connection down twice is the same as once, and the order
    in which two connections are torn down does not matter. *)
Theorem deleteConnection_idempotent_commutes (k1 k2 : string) (server : WS) :
  deleteConnection k1 (deleteConnection k1 server) = deleteConnection k1 server
  ∧ deleteConnection k1 (deleteConnection k2 server)
    = deleteConnection k2 (deleteConnection k1 server).
Proof.
  unfold deleteConnection. simpl. split; f_equal.
  - apply delete_delete_eq.
  - rewrite <- map_fmap_compose. apply map_fmap_ext. intros topic subs _. simpl.
    apply delete_delete_eq.
  - apply delete_delete.
  - rewrite <- !map_fmap_compose. apply map_fmap_ext. intros topic subs _. simpl.
    apply delete_delete.
Qed.

(** ** Publish *)

Lemma deliver_elem server pubHandler uri event ids p :
  p ∈ deliver server pubHandler uri event ids →
  ∃ k c value,
    k ∈ ids ∧ connections server !! k = Some c ∧ p.1 = id c
    ∧ p.2 = Encoded (createMessage msgEvent [AString uri; value]).
Proof.
  induction ids as [|connID ids IH]; simpl; [by intros ?%elem_of_nil|].
  unfold getConnection.
  destruct (connections server !! connID) as [c|] eqn:Hc.
  - assert (∀ value,
              p ∈ send c (Encoded (createMessage msgEvent [AString uri; value]))
                    :: deliver server pubHandler uri event ids →
              ∃ k c value',
                k ∈ connID :: ids ∧ connections server !! k = Some c ∧ p.1 = id c
                ∧ p.2 = Encoded (createMessage msgEvent [AString uri; value']))
      as Hcons.
    { intros value [->|Hin]%elem_of_cons.
      - exists connID, c, value. split; [left|done].
      - destruct (IH Hin) as (k & c' & value' & Hk & ?).
        exists k, c', value'. split; [by right|done]. }
    destruct pubHandler as [filter|]; [|apply Hcons].
    destruct (filter uri event (extra c)) as [[] modifiedEvent]; [apply Hcons|].
    intros Hin. destruct (IH Hin) as (k & c' & value' & Hk & ?).
    exists k, c', value'. split; [by right|done].
  - intros Hin. destruct (IH Hin) as (k & c' & value' & Hk & ?).
    exists k, c', value'. split; [by right|done].
Qed.

Lemma deliver_NoDup server pubHandler uri event ids :
  registryOK server → NoDup ids →
  NoDup (deliver server pubHandler uri event ids).*1.
Proof.
  intros Hok. induction ids as [|connID ids IH]; simpl; [constructor|].
  intros [Hfresh Hnd]%NoDup_cons. specialize (IH Hnd).
  unfold getConnection.
  destruct (connections server !! connID) as [c|] eqn:Hc; [|done].
  assert (NoDup (id c :: (deliver server pubHandler uri event ids).*1)) as Hcons.
  { apply NoDup_cons. split; [|done].
    intros ([k' v] & Heq & Hin)%list_elem_of_fmap. simpl in Heq.
    destruct (deliver_elem _ _ _ _ _ _ Hin) as (k & c' & _ & Hk & Hc' & Hid & _).
    simpl in Hid. rewrite (Hok k c' Hc') in Hid. rewrite (Hok connID c Hc) in Heq.
    congruence. }
  destruct pubHandler as [filter|]; [|done].
  by destruct (filter uri event (extra c)) as [[] modifiedEvent].
Qed.

Lemma deliver_reaches server pubHandler uri event ids k c :
  k ∈ ids → connections server !! k = Some c →
  match pubHandler with
  | Some filter => (filter uri event (extra c)).1 = true
  | None => True
  end →
  send c (Encoded (createMessage msgEvent
            [AString uri;
             match pubHandler with
             | Some filter => (filter uri event (extra c)).2
             | None => event
             end]))
    ∈ deliver server pubHandler uri event ids.
Proof.
  intros Hin Hc Hallow. induction ids as [|connID ids IH]; simpl;
    [by apply elem_of_nil in Hin|].
  apply elem_of_cons in Hin as [<-|Hin].
  - unfold getConnection. rewrite Hc. destruct pubHandler as [filter|]; [|left].
    destruct (filter uri event (extra c)) as [allow modifiedEvent].
    simpl in *. subst allow. left.
  - specialize (IH Hin). unfold getConnection.
    destruct (connections server !! connID) as [c'|]; [|done].
    destruct pubHandler as [filter|]; [|by right].
    destruct (filter uri event (extra c')) as [[] ?]; [by right|done].
Qed.

(** X14. With every connection stored under its own id, a publish sends
    only Event messages for the topic, only to stored connections that are
    members of the topic's subscriber set, and at most one to each; every
    member that is stored and that the filter, if the topic has one, lets
    through gets its Event. *)
Theorem publish_reaches_members_once (range : list (string * bool))
    (uri : string) (event : Any) (server : WS) (subs : subscribersMap) :
  registryOK server →
  subscribers server !! uri = Some subs →
  range ≡ₚ map_to_list subs →
  let sent := Publish range uri event server in
  NoDup sent.*1
  ∧ (∀ p, p ∈ sent →
       is_Some (subs !! p.1) ∧ is_Some (connections server !! p.1)
       ∧ ∃ value, p.2 = Encoded (createMessage msgEvent [AString uri; value]))
  ∧ (∀ k c, is_Some (subs !! k) → connections server !! k = Some c →
       match pubHandlerOf uri server with
       | Some filter => (filter uri event (extra c)).1 = true
       | None => True
       end →
       ∃ value,
         (k, Encoded (createMessage msgEvent [AString uri; value])) ∈ sent).
Proof.
  intros Hok Hsubs Hrange sent. subst sent.
  rewrite (Publish_deliver _ _ _ _ _ Hsubs Hrange). split; [|split].
  - apply deliver_NoDup; [done|]. by eapply range_NoDup.
  - intros p Hin.
    destruct (deliver_elem _ _ _ _ _ _ Hin) as (k & c & value & Hk & Hc & Hid & Hp).
    rewrite Hid, (Hok k c Hc). split; [by apply (range_keys subs range)|].
    split; [by exists c|by exists value].
  - intros k c Hmember Hc Hallow. eexists.
    pose proof (deliver_reaches server (pubHandlerOf uri server) uri event
                  range.*1 k c) as Hr.
    unfold send in Hr. rewrite (Hok k c Hc) in Hr. apply Hr; [|done..].
    by apply (range_keys subs range).
Qed.

(** X15. The filter of a publish is the one registered under exactly the
    topic: when there is none, be there a registered prefix of the topic
    with a filter, every stored member gets the event as it was published,
    in the order of the enumeration. *)
Theorem publish_without_exact_filter (range : list (string * bool))
    (uri : string) (event : Any) (server : WS) (subs : subscribersMap) :
  pubHandlerOf uri server = None →
  subscribers server !! uri = Some subs →
  range ≡ₚ map_to_list subs →
  Publish range uri event server
  = (λ c, send c (Encoded (createMessage msgEvent [AString uri; event])))
      <$> omap (λ k, connections server !! k) range.*1.
Proof.
  intros Hnone Hsubs Hrange.
  rewrite (Publish_deliver _ _ _ _ _ Hsubs Hrange), Hnone.
  induction (range.*1) as [|k ids IH]; simpl; [done|].
  unfold getConnection. destruct (connections server !! k) as [c|]; simpl; [|done].
  by rewrite IH.
Qed.
(** ** The receive loop *)

(** X16. A Call, Subscribe, Unsubscribe or Publish frame whose fields do not
    parse is dropped: nothing is sent and the server is unchanged. The fields
    of a Publish frame are parsed as those of an Unsubscribe frame. *)
Theorem unparsable_fields_dropped (r : ranges) (c : conn) (data : string)
    (server : WS) (kind : msgType) (msg : list Any) (err : option error) :
  parseMessage data = (kind, msg, err) →
  kind ∈ [msgCall; msgSubscribe; msgUnsubscribe; msgPublish] →
  (∃ e, parseWampMessage
          (if decide (kind = msgPublish) then msgUnsubscribe else kind) msg
        = inr e) →
  dispatch r c data server = (server, []).
Proof.
  intros Hparse Hkind [e He]. unfold dispatch. rewrite Hparse.
  repeat (apply elem_of_cons in Hkind as [->|Hkind]); simpl in He.
  - unfold handleRPCCall. by rewrite He.
  - unfold handleSubscribe. by rewrite He.
  - unfold handleUnSubscribe. by rewrite He.
  - unfold handlePublish. by rewrite He.
  - by apply elem_of_nil in Hkind.
Qed.


Lemma dispatch_registries r c data server :
  let server' := (dispatch r c data server).1 in
  connections server' = connections server
  ∧ rpcHandlers server' = rpcHandlers server
  ∧ rpcRgxHandlers server' = rpcRgxHandlers server
  ∧ subHandlers server' = subHandlers server.
Proof.
  unfold dispatch. destruct (parseMessage data) as [[kind msg] err].
  destruct kind; try done.
  - destruct (handleSubscribe_cases (range_subHandlers r) c msg server)
      as [[->|(? & _ & ->)] _]; done.
  - destruct (handleUnSubscribe_cases (range_subscribers r) c msg server)
      as [[->|(? & ->)] _]; done.
Qed.

Lemma receive_cons c data r frames server :
  receive c ((data, r) :: frames) server
  = ((receive c frames (dispatch r c data server).1).1,
     (dispatch r c data server).2
       ++ (receive c frames (dispatch r c data server).1).2).
Proof.
  simpl. destruct (dispatch r c data server) as [server' sent]. simpl.
  by destruct (receive c frames server').
Qed.

(** X18. The frames of a connection never change the connection map or the
    handler tables, and never take a topic's subscriber set away. *)
Theorem frames_keep_registries (c : conn) (frames : list (string * ranges))
    (server : WS) :
  let server' := (receive c frames server).1 in
  connections server' = connections server
  ∧ rpcHandlers server' = rpcHandlers server
  ∧ rpcRgxHandlers server' = rpcRgxHandlers server
  ∧ subHandlers server' = subHandlers server
  ∧ ∀ topic, is_Some (subscribers server !! topic) →
             is_Some (subscribers server' !! topic).
Proof.
  revert server. induction frames as [|[data r] frames IH]; intros server; [done|].
  rewrite receive_cons. simpl.
  destruct (IH (dispatch r c data server).1) as (-> & -> & -> & -> & Hs).
  destruct (dispatch_registries r c data server) as (-> & -> & -> & ->).
  repeat split. intros topic Hsome. apply Hs.
  by apply (exec_subscribers_is_Some (OpDispatch r c data)).
Qed.

(** ** Invariants of the executions *)

(** What a subscribe request that changes the server went through. *)
Lemma handleSubscribe_state range c msg server :
  (handleSubscribe range c msg server).1 = server
  ∨ ∃ subMessage prefix handler,
      parseWampMessage msgSubscribe msg = inl subMessage
      ∧ (prefix, handler) ∈ range
      ∧ String.prefix prefix (URI subMessage) = true
      ∧ h_subHandler handler (id c) (URI subMessage) (Args subMessage) = true
      ∧ handleSubscribe range c msg server =
          (set_subscribers server
             (<[URI subMessage := <[id c := subscriberExists]>
                  (default ∅ (subscribers server !! URI subMessage))]>
                (subscribers server)),
           [send c (Encoded (createMessage msgSubscribed
                      [AString (URI subMessage)]))]).
Proof.
  unfold handleSubscribe.
  destruct (parseWampMessage msgSubscribe msg) as [m|] eqn:Hm; [|by left].
  rewrite subscribeLoop_find.
  destruct (find _ range) as [[prefix handler]|] eqn:Hfind; [|by left].
  destruct (find_range_Some _ _ _ Hfind) as [Hin Hp]. simpl in Hp.
  destruct (h_subHandler handler _ _ _) eqn:Hyes; [|by left].
  right. by exists m, prefix, handler.
Qed.

(** X20. A subscribe request is answered Subscribed only when a registered
    prefix is a prefix of the topic and its handler accepts the request. *)
Theorem subscribed_only_if_accepted (range : list (string * subHandler))
    (c : conn) (msg : list Any) (subMessage : wampMessage) (server : WS) :
  parseWampMessage msgSubscribe msg = inl subMessage →
  range ≡ₚ map_to_list (subHandlers server) →
  (handleSubscribe range c msg server).2
    = [send c (Encoded (createMessage msgSubscribed [AString (URI subMessage)]))] →
  ∃ prefix handler,
    subHandlers server !! prefix = Some handler
    ∧ String.prefix prefix (URI subMessage) = true
    ∧ h_subHandler handler (id c) (URI subMessage) (Args subMessage) = true.
Proof.
  intros Hparse Hrange Hanswer. unfold handleSubscribe in Hanswer.
  rewrite Hparse, subscribeLoop_find in Hanswer.
  destruct (find _ range) as [[prefix handler]|] eqn:Hfind;
    [|by inversion Hanswer].
  destruct (find_range_Some _ _ _ Hfind) as [Hin Hp]. simpl in Hp.
  destruct (h_subHandler handler _ _ _) eqn:Hyes; [|by inversion Hanswer].
  exists prefix, handler. split; [|done].
  by apply (range_lookup _ range _ _ Hrange).
Qed.

Lemma Register_connections_subscribers range _uri fn uri fnSub fnPub server :
  connections (RegisterRPCHandler range _uri fn server).1 = connections server
  ∧ subscribers (RegisterRPCHandler range _uri fn server).1 = subscribers server
  ∧ subHandlers (RegisterRPCHandler range _uri fn server).1 = subHandlers server
  ∧ connections (RegisterSubHandler uri fnSub fnPub server).1 = connections server
  ∧ subscribers (RegisterSubHandler uri fnSub fnPub server).1 = subscribers server
  ∧ rpcRgxHandlers (RegisterSubHandler uri fnSub fnPub server).1
    = rpcRgxHandlers server.
Proof.
  unfold RegisterRPCHandler, RegisterSubHandler.
  repeat case_match; done.
Qed.

Lemma exec_noDangling o server :
  consistent o server → noDangling server → noDangling (exec o server).1.
Proof.
  intros Hcons Hnd topic subs k.
  destruct o as [range _uri fn|uri fnSub fnPub|range uri event|k' e|r c data|k'];
    simpl.
  - destruct (Register_connections_subscribers range _uri fn "" (λ _ _ _, true)
                None server) as (-> & -> & _). apply Hnd.
  - destruct (Register_connections_subscribers [] ANil (λ _ _ _, (ANil, None))
                uri fnSub fnPub server) as (_ & _ & _ & -> & -> & _). apply Hnd.
  - apply Hnd.
  - intros Hsubs Hk. apply lookup_insert_is_Some'. right. by eapply Hnd.
  - destruct Hcons as (Hc & _).
    destruct (dispatch_registries r c data server) as (-> & _).
    destruct (exec_subscribers (OpDispatch r c data) server)
      as [Heq|[(t & k0 & _ & Hk0 & Heq)|[(t & k0 & Heq)|(k0 & Heq)]]];
      simpl in Heq; rewrite Heq; clear Heq.
    + apply Hnd.
    + simpl in Hk0. subst k0. rewrite lookup_insert.
      destruct (decide (t = topic)) as [->|]; [|apply Hnd].
      intros [= <-]. rewrite lookup_insert.
      destruct (decide (id c = k)) as [<-|]; [by rewrite Hc|].
      destruct (subscribers server !! topic) as [subs'|] eqn:E; simpl.
      * intros ?. by eapply Hnd.
      * rewrite lookup_empty. by intros [? ?].
    + rewrite lookup_alter. destruct (decide (t = topic)) as [->|]; [|apply Hnd].
      destruct (subscribers server !! topic) as [subs'|] eqn:E; simpl; [|done].
      intros [= <-]. rewrite lookup_delete.
      destruct (decide (k0 = k)); [by intros [? ?]|]. intros ?. by eapply Hnd.
    + rewrite lookup_fmap.
      destruct (subscribers server !! topic) as [subs'|] eqn:E; simpl; [|done].
      intros [= <-]. rewrite lookup_delete.
      destruct (decide (k0 = k)); [by intros [? ?]|]. intros ?. by eapply Hnd.
  - rewrite lookup_fmap.
    destruct (subscribers server !! topic) as [subs'|] eqn:E; simpl; [|done].
    intros [= <-]. rewrite !lookup_delete.
    destruct (decide (k' = k)); [by intros [? ?]|]. intros ?. by eapply Hnd.
Qed.

Lemma exec_uniqueSources o server :
  consistent o server → uniqueSources server → uniqueSources (exec o server).1.
Proof.
  intros Hcons Hu.
  destruct o as [range _uri fn|uri fnSub fnPub|range uri event|k' e|r c data|k'];
    simpl; try done.
  - unfold RegisterRPCHandler. destruct _uri; try done.
    + by destruct (rpcHandlers server !! s).
    + destruct (rgxRegistered range r) eqn:Hreg; [done|]. simpl.
      rewrite rgxRegistered_false in Hreg.
      assert (∀ k, is_Some (rpcRgxHandlers server !! k) →
                   rgx_String k ≠ rgx_String r) as Hfresh.
      { intros k [h Hk]. apply (Hreg k h).
        by apply (range_lookup _ range _ _ Hcons). }
      intros k1 k2. unfold uniqueSources in Hu. simpl.
      rewrite !lookup_insert_is_Some'.
      intros [->|H1] [->|H2] Heq; try done.
      * by destruct (Hfresh k2 H2).
      * by destruct (Hfresh k1 H1).
      * by apply Hu.
  - destruct (Register_connections_subscribers [] ANil (λ _ _ _, (ANil, None))
                uri fnSub fnPub server) as (_ & _ & _ & _ & _ & Hx).
    unfold uniqueSources. by rewrite Hx.
  - destruct (dispatch_registries r c data server) as (_ & _ & Hx & _).
    unfold uniqueSources. simpl in Hx. by rewrite Hx.
Qed.

Lemma exec_topicsCovered o server :
  consistent o server → topicsCovered server → topicsCovered (exec o server).1.
Proof.
  intros Hcons Hcov.
  destruct o as [range _uri fn|uri fnSub fnPub|range uri event|k' e|r c data|k'];
    simpl; try done.
  - destruct (Register_connections_subscribers range _uri fn "" (λ _ _ _, true)
                None server) as (_ & Hs & Hh & _).
    unfold topicsCovered. by rewrite Hs, Hh.
  - intros topic.
    destruct (Register_connections_subscribers [] ANil (λ _ _ _, (ANil, None))
                uri fnSub fnPub server) as (_ & _ & _ & _ & -> & _).
    intros Hsome. destruct (Hcov topic Hsome) as (prefix & handler & Hreg & Hp).
    exists prefix, handler. split; [|done]. unfold RegisterSubHandler.
    destruct (subHandlers server !! uri) eqn:E; [done|]. simpl.
    rewrite lookup_insert_ne; [done|]. congruence.
  - destruct Hcons as (_ & _ & Hrange & _).
    destruct (dispatch_registries r c data server) as (_ & _ & _ & Hh).
    intros topic. simpl in Hh. rewrite Hh. clear Hh.
    unfold dispatch. destruct (parseMessage data) as [[kind msg] err].
    destruct kind; simpl; try apply Hcov.
    + destruct (handleSubscribe_state (range_subHandlers r) c msg server)
        as [->|(m & prefix & handler & _ & Hin & Hp & _ & ->)]; [apply Hcov|].
      simpl. rewrite lookup_insert. destruct (decide (URI m = topic)) as [<-|];
        [|apply Hcov].
      intros _. exists prefix, handler. split; [|done].
      by apply (range_lookup _ _ _ _ Hrange).
    + destruct (handleUnSubscribe_cases (range_subscribers r) c msg server)
        as [[->|(t & ->)] _]; [apply Hcov|]. simpl.
      rewrite lookup_alter_is_Some. apply Hcov.
  - intros topic. simpl. rewrite lookup_fmap, fmap_is_Some. apply Hcov.
Qed.

(** X21. From the empty server, every sequence of operations leaves each
    connection stored under its own id. *)
Theorem connections_keyed_by_id (ops : list op) :
  registryOK (run ops New).1
  ∧ ∀ k c, connections (run ops New).1 !! k = Some c →
           getConnection (id c) (run ops New).1 = inl c.
Proof.
  pose proof (run_registryOK ops New New_registryOK) as Hok.
  split; [done|]. intros k c Hk. unfold getConnection.
  by rewrite (Hok k c Hk), Hk.
Qed.

(** X22. In an execution where frames are handled for stored connections,
    every member of a subscriber set is the id of a stored connection at all
    times: a publish never meets a member without connection. *)
Theorem no_dangling_members (ops : list op) (server : WS) :
  noDangling server → legal ops server →
  noDangling (run ops server).1.
Proof.
  revert server. induction ops as [|o ops IH]; intros server Hnd Hlegal; [done|].
  destruct Hlegal as [Ho Hlegal]. rewrite run_cons. simpl.
  apply IH; [by apply exec_noDangling|done].
Qed.

(** X23. In an execution, no two stored patterns ever have the same source
    text. *)
Theorem pattern_sources_stay_unique (ops : list op) (server : WS) :
  uniqueSources server → legal ops server →
  uniqueSources (run ops server).1.
Proof.
  revert server. induction ops as [|o ops IH]; intros server Hu Hlegal; [done|].
  destruct Hlegal as [Ho Hlegal]. rewrite run_cons. simpl.
  apply IH; [by apply exec_uniqueSources|done].
Qed.

(** X24. In an execution, every topic that has a subscriber set has a
    registered prefix: no membership exists for a topic the hosting process
    registered no prefix for. *)
Theorem subscribed_topics_have_prefix (ops : list op) (server : WS) :
  topicsCovered server → legal ops server →
  topicsCovered (run ops server).1.
Proof.
  revert server. induction ops as [|o ops IH]; intros server Hc Hlegal; [done|].
  destruct Hlegal as [Ho Hlegal]. rewrite run_cons. simpl.
  apply IH; [by apply exec_topicsCovered|done].
Qed.
(** X25. A Publish frame whose fields parse leaves the server unchanged and
    publishes the first argument, or null when there is none, on the topic;
    a publisher that is not a member of the topic gets nothing back. *)
Theorem publish_frame_no_reply (r : ranges) (c : conn) (data : string)
    (server : WS) (msg : list Any) (err : option error)
    (pubMessage : wampMessage) :
  parseMessage data = (msgPublish, msg, err) →
  parseWampMessage msgUnsubscribe msg = inl pubMessage →
  dispatch r c data server
  = (server,
     Publish (range_subscriberIds r) (URI pubMessage)
             (hd ANil (Args pubMessage)) server)
  ∧ (registryOK server →
     (∀ subs, subscribers server !! URI pubMessage = Some subs →
        range_subscriberIds r ≡ₚ map_to_list subs ∧ subs !! id c = None) →
     ∀ p, p ∈ (dispatch r c data server).2 → p.1 ≠ id c).
Proof.
  intros Hparse Hfields.
  assert (dispatch r c data server
          = (server, Publish (range_subscriberIds r) (URI pubMessage)
                             (hd ANil (Args pubMessage)) server)) as Hd.
  { unfold dispatch, handlePublish. rewrite Hparse, Hfields.
    by destruct (Args pubMessage). }
  split; [done|]. intros Hok Hnot. rewrite Hd. simpl. intros p Hin.
  destruct (subscribers server !! URI pubMessage) as [subs|] eqn:Hsubs.
  - destruct (Hnot subs eq_refl) as [Hrange Habsent].
    rewrite (Publish_deliver _ _ _ _ _ Hsubs Hrange) in Hin.
    destruct (deliver_elem _ _ _ _ _ _ Hin) as (k & c' & _ & Hk & Hc' & Hid & _).
    rewrite Hid, (Hok k c' Hc'). intros ->.
    apply (range_keys subs _ _ Hrange) in Hk as [b Hb]. congruence.
  - unfold Publish in Hin. rewrite Hsubs in Hin. by apply elem_of_nil in Hin.
Qed.

End Coverage.

(** ** The further properties on the sample deployment *)

Lemma lookups_Forall `{Countable K} {V} (P : K → Prop) (m : gmap K V) :
  map_Forall (λ k _, P k) m → ∀ k, is_Some (m !! k) → P k.
Proof. intros Hall k [v Hk]. by apply (Hall k v). Qed.

Lemma history_legal : legal (ext := Sample2.codec) Sample2.history New.
Proof.
  unfold Sample2.history. simpl.
  repeat split; vm_compute; reflexivity.
Defined.

(** math.sum gets a handler and is called. *)
Lemma register_then_call_witness :
  handleRPCCall (ext := Sample.codec) [] Sample.carol
    [AString "3"; AString "math.sum"; ANumber 2; ANumber 2]
    (RegisterRPCHandler (range_rpcRgxHandlers Sample.orders)
       (AString "math.sum") Sample.add Sample.server).1
  = [("carol", Encoded (mkMessage msgCallResult [AString "3"; ANumber 4]))].
Proof.
  destruct (register_then_call (ext := Sample.codec)
              (range_rpcRgxHandlers Sample.orders) [] "math.sum" Sample.add
              Sample.carol
              [AString "3"; AString "math.sum"; ANumber 2; ANumber 2]
              (mkWampMessage (AString "3") "math.sum" [ANumber 2; ANumber 2])
              Sample.server)
    as (_ & _ & _ & _ & Hcall).
  - vm_compute. reflexivity.
  - reflexivity.
  - reflexivity.
  - rewrite Hcall. reflexivity.
Defined.

(** A pattern for time. is registered once; a second compiled object with
    the same text is refused. *)
Lemma register_pattern_once_witness :
  (RegisterRPCHandler
     (map_to_list (<[mkRegexp 3 "time." := Sample.echo]>
                     (rpcRgxHandlers Sample.server)))
     (ARegexp (mkRegexp 4 "time.")) Sample.add
     (RegisterRPCHandler (range_rpcRgxHandlers Sample.orders)
        (ARegexp (mkRegexp 3 "time.")) Sample.echo Sample.server).1).2
  = Some (errors_Wrap ErrHandlerAlreadyRegistered "when registering rgx rpcHandler").
Proof.
  destruct (register_pattern_once
              (range_rpcRgxHandlers Sample.orders)
              (map_to_list (<[mkRegexp 3 "time." := Sample.echo]>
                              (rpcRgxHandlers Sample.server)))
              (mkRegexp 3 "time.") (mkRegexp 4 "time.") Sample.echo Sample.add
              Sample.server)
    as (_ & _ & _ & Hsecond).
  - reflexivity.
  - apply (lookups_Forall (λ k, rgx_String k ≠ "time.")).
    apply (bool_decide_unpack _). vm_compute. exact I.
  - vm_compute. reflexivity.
  - reflexivity.
  - rewrite Hsecond. reflexivity.
Defined.

(** math.sub has no exact handler and only the math. pattern matches it. *)
Lemma resolve_single_pattern_witness :
  resolve (ext := Sample.codec) (range_rpcRgxHandlers Sample.orders) "math.sub"
          Sample.server
  = Some Sample.echo.
Proof.
  apply (resolve_single_pattern (ext := Sample.codec)
           (range_rpcRgxHandlers Sample.orders) "math.sub" Sample.mathRgx
           Sample.echo Sample.server).
  - reflexivity.
  - vm_compute. reflexivity.
  - vm_compute. reflexivity.
  - reflexivity.
  - apply (lookups_Forall (λ k, Sample.matchPrefix k "math.sub" = true →
                                k = Sample.mathRgx)).
    apply (bool_decide_unpack _). vm_compute. exact I.
Defined.

(** private. is the only registered prefix of private.x. *)
Lemma subscribe_single_prefix_witness :
  handleSubscribe (ext := Sample.codec) (range_subHandlers Sample.orders)
    Sample.carol [AString "private.x"] Sample.server
  = (Sample.server,
     [("carol", Encoded (mkMessage msgSubscribeError
                  [AString "private.x"; AErrorObject ErrForbidden]))]).
Proof.
  rewrite (subscribe_single_prefix (ext := Sample.codec)
             (range_subHandlers Sample.orders) Sample.carol
             [AString "private.x"] (mkWampMessage ANil "private.x" [])
             "private." (mkSubHandler Sample.allowNone None) Sample.server).
  - reflexivity.
  - reflexivity.
  - reflexivity.
  - vm_compute. reflexivity.
  - reflexivity.
  - apply (lookups_Forall (λ k, String.prefix k "private.x" = true →
                                k = "private.")).
    apply (bool_decide_unpack _). vm_compute. exact I.
Defined.

(** carol joins news.sports and leaves it again. *)
Lemma subscribe_unsubscribe_roundtrip_witness :
  (handleUnSubscribe (ext := Sample.codec)
     (map_to_list (subscribers
        (handleSubscribe (ext := Sample.codec) (range_subHandlers Sample.orders)
           Sample.carol [AString "news.sports"] Sample.server).1))
     Sample.carol [AString "news.sports"]
     (handleSubscribe (ext := Sample.codec) (range_subHandlers Sample.orders)
        Sample.carol [AString "news.sports"] Sample.server).1).1
  = Sample.server.
Proof.
  destruct (subscribe_unsubscribe_roundtrip (ext := Sample.codec)
              (range_subHandlers Sample.orders)
              (map_to_list (subscribers
                 (handleSubscribe (ext := Sample.codec)
                    (range_subHandlers Sample.orders)
                    Sample.carol [AString "news.sports"] Sample.server).1))
              Sample.carol [AString "news.sports"] [AString "news.sports"]
              (mkWampMessage ANil "news.sports" [])
              (mkWampMessage ANil "news.sports" [])
              Sample.server)
    as (_ & _ & _ & Hback).
  - reflexivity.
  - reflexivity.
  - reflexivity.
  - vm_compute. reflexivity.
  - reflexivity.
  - apply (Hback (default ∅ (subscribers Sample.server !! "news.sports")));
      vm_compute; reflexivity.
Defined.

(** alice is a member of news.sports already. *)
Lemma subscribe_member_unchanged_witness :
  (handleSubscribe (ext := Sample.codec) (range_subHandlers Sample.orders)
     Sample.alice [AString "news.sports"] Sample.server).1
  = Sample.server.
Proof.
  apply (subscribe_member_unchanged (ext := Sample.codec)
           (range_subHandlers Sample.orders) Sample.alice
           [AString "news.sports"] (mkWampMessage ANil "news.sports" [])
           (default ∅ (subscribers Sample.server !! "news.sports"))
           Sample.server).
  - reflexivity.
  - vm_compute. reflexivity.
  - vm_compute. reflexivity.
Defined.

(** alice leaves news.sports twice. *)
Lemma unsubscribe_twice_witness :
  (handleUnSubscribe (ext := Sample.codec)
     (map_to_list (subscribers
        (handleUnSubscribe (ext := Sample.codec)
           (range_subscribers Sample.orders) Sample.alice
           [AString "news.sports"] Sample.server).1))
     Sample.alice [AString "news.sports"]
     (handleUnSubscribe (ext := Sample.codec)
        (range_subscribers Sample.orders) Sample.alice
        [AString "news.sports"] Sample.server).1).2
  = [("alice", Encoded (mkMessage msgUnSubscribeError
                 [AString "news.sports"; AErrorObject ErrNotSubscribes]))].
Proof.
  rewrite (unsubscribe_twice (ext := Sample.codec)
             (range_subscribers Sample.orders)
             (map_to_list (subscribers
                (handleUnSubscribe (ext := Sample.codec)
                   (range_subscribers Sample.orders) Sample.alice
                   [AString "news.sports"] Sample.server).1))
             Sample.alice [AString "news.sports"]
             (mkWampMessage ANil "news.sports" [])
             (default ∅ (subscribers Sample.server !! "news.sports"))
             Sample.server).
  - reflexivity.
  - reflexivity.
  - reflexivity.
  - vm_compute. reflexivity.
  - exists true. vm_compute. reflexivity.
  - reflexivity.
Defined.

(** carol's joining or leaving news.local does not change a publish on
    news.sports. *)
Lemma membership_is_per_topic_witness :
  Publish (range_subscriberIds Sample.orders) "news.sports" (AString "goal")
    (handleSubscribe (ext := Sample.codec) (range_subHandlers Sample.orders)
       Sample.carol [AString "news.local"] Sample.server).1
  = Publish (range_subscriberIds Sample.orders) "news.sports" (AString "goal")
      Sample.server.
Proof.
  apply (membership_is_per_topic (ext := Sample.codec)
           (range_subHandlers Sample.orders) (range_subscribers Sample.orders)
           Sample.carol [AString "news.local"]
           (range_subscriberIds Sample.orders) "news.sports" (AString "goal")
           Sample.server).
  - intros m Hm. vm_compute in Hm. injection Hm as <-. discriminate.
  - intros m Hm. vm_compute in Hm. injection Hm as <-. discriminate.
Defined.

(** zed is unknown to the sample server. *)
Lemma add_delete_roundtrip_witness :
  deleteConnection "zed" (addConnection "zed" ANil Sample.server).1 = Sample.server.
Proof.
  apply (add_delete_roundtrip "zed" ANil Sample.server).
  split; [vm_compute; reflexivity|].
  apply (bool_decide_unpack _). vm_compute. exact I.
Defined.

(** A publish on news.sports reaches alice alone. *)
Lemma publish_reaches_members_once_witness :
  NoDup (Publish (range_subscriberIds Sample.orders) "news.sports"
                 (AString "goal") Sample.server).*1.
Proof.
  apply (publish_reaches_members_once
           (range_subscriberIds Sample.orders) "news.sports" (AString "goal")
           Sample.server
           (default ∅ (subscribers Sample.server !! "news.sports"))).
  - unfold registryOK. apply (bool_decide_unpack _). vm_compute. exact I.
  - vm_compute. reflexivity.
  - reflexivity.
Defined.

(** news.local has no handler of its own: carol gets the event as published,
    though news. is registered. *)
Lemma publish_without_exact_filter_witness :
  Publish [("carol", true)] "news.local" (AString "rain") Sample2.local
  = [("carol", Encoded (mkMessage msgEvent [AString "news.local"; AString "rain"]))].
Proof.
  rewrite (publish_without_exact_filter [("carol", true)] "news.local"
             (AString "rain") Sample2.local
             (default ∅ (subscribers Sample2.local !! "news.local"))).
  - vm_compute. reflexivity.
  - vm_compute. reflexivity.
  - vm_compute. reflexivity.
  - vm_compute. reflexivity.
Defined.

(** A call frame with a number where the uri should be. *)
Lemma unparsable_fields_dropped_witness :
  dispatch (ext := Sample2.codec) Sample.orders Sample.alice "call-bad"
           Sample.server
  = (Sample.server, []).
Proof.
  apply (unparsable_fields_dropped (ext := Sample2.codec) Sample.orders
           Sample.alice "call-bad" Sample.server msgCall [ANumber 0] None).
  - reflexivity.
  - left.
  - exists (errors_New "invalid call"). reflexivity.
Defined.


(** carol was let into news.sports by one of the two prefixes that match. *)
Lemma subscribed_only_if_accepted_witness :
  ∃ prefix handler,
    subHandlers Sample.server !! prefix = Some handler
    ∧ String.prefix prefix "news.sports" = true
    ∧ h_subHandler handler "carol" "news.sports" [] = true.
Proof.
  apply (subscribed_only_if_accepted (ext := Sample.codec)
           (range_subHandlers Sample.orders) Sample.carol
           [AString "news.sports"] (mkWampMessage ANil "news.sports" [])
           Sample.server).
  - reflexivity.
  - reflexivity.
  - vm_compute. reflexivity.
Defined.

Lemma no_dangling_members_witness :
  noDangling (run (ext := Sample2.codec) Sample2.history New).1.
Proof.
  apply (no_dangling_members (ext := Sample2.codec) Sample2.history New).
  - intros topic subs k Hsubs. simpl in Hsubs. by rewrite lookup_empty in Hsubs.
  - exact history_legal.
Defined.

Lemma pattern_sources_stay_unique_witness :
  uniqueSources (run (ext := Sample2.codec) Sample2.history New).1.
Proof.
  apply (pattern_sources_stay_unique (ext := Sample2.codec) Sample2.history New).
  - intros k1 k2 [h Hk1]. simpl in Hk1. by rewrite lookup_empty in Hk1.
  - exact history_legal.
Defined.

Lemma subscribed_topics_have_prefix_witness :
  topicsCovered (run (ext := Sample2.codec) Sample2.history New).1.
Proof.
  apply (subscribed_topics_have_prefix (ext := Sample2.codec) Sample2.history New).
  - intros topic [subs Hsubs]. simpl in Hsubs. by rewrite lookup_empty in Hsubs.
  - exact history_legal.
Defined.

(** alice publishes on news.local, which carol alone follows. *)
Lemma publish_frame_no_reply_witness :
  dispatch (ext := Sample2.codec)
    (mkRanges [] [] [] [("carol", true)]) Sample.alice "pub-local" Sample2.local
  = (Sample2.local,
     Publish [("carol", true)] "news.local" (AString "rain") Sample2.local)
  ∧ ∀ p,
      p ∈ (dispatch (ext := Sample2.codec)
             (mkRanges [] [] [] [("carol", true)]) Sample.alice "pub-local"
             Sample2.local).2 →
      p.1 ≠ "alice".
Proof.
  destruct (publish_frame_no_reply (ext := Sample2.codec)
              (mkRanges [] [] [] [("carol", true)]) Sample.alice "pub-local"
              Sample2.local
              [AString "news.local"; AString "rain"; AString "ignored"] None
              (mkWampMessage ANil "news.local"
                 [AString "rain"; AString "ignored"])
              eq_refl eq_refl)
    as [Hpublished Hnone].
  split; [exact Hpublished|]. apply Hnone.
  - unfold registryOK. apply (bool_decide_unpack _). vm_compute. exact I.
  - intros subs Hsubs. vm_compute in Hsubs. injection Hsubs as <-.
    split; vm_compute; reflexivity.
Defined.
